(** * The pybind11 wrappers of the point-cloud visualizer (_viz.cpp)

    A shallow embedding of the binding layer: the argument checks
    ([check_array], [tuple_to_float_array]), the setters of Cloud, Image,
    Cuboid and Label, the structured Cloud constructor and the rendering
    loop of [PointViz.run].  The wrapped C++ library (ouster/point_viz.h,
    ouster/lidar_scan.h) and the pybind11 casters are interfaces here: the
    results hold for every implementation of them. *)

From Stdlib Require Import ZArith Lia Ascii String.
From Stdlib Require Import Floats.SpecFloat.
From stdpp Require Import base list strings pretty.

Open Scope Z_scope.

(** ** Machine integers and floating-point values *)

(** [size_t] on the 64-bit targets the module is built for. *)
Definition size_t_modulus : Z := 2 ^ 64.

(** [static_cast<size_t>(x)]. *)
Definition to_size_t (x : Z) : Z := x mod size_t_modulus.

(** Unsigned multiplication in [size_t]. *)
Definition size_t_mul (x y : Z) : Z := to_size_t (x * y).

(** A C++ [double] (binary64) and a C++ [float] (binary32), both as IEEE-754
    values without NaN payload. *)
Definition double : Type := spec_float.
Definition float : Type := spec_float.

(** The narrowing conversion [static_cast<float>(d)] (Eigen's
    [cast<float>()] applies it to every coefficient): round to nearest
    even with a 24-bit significand. *)
Definition double_to_float (d : double) : float :=
  match d with
  | S754_finite s m e => binary_round 24 128 s m e
  | _ => d
  end.

(** A Python int as a C [double], as [PyFloat_AsDouble] gives it: rounded
    to nearest even, and no value when the int is out of the range of
    [double] (OverflowError). *)
Definition double_of_Z (z : Z) : option double :=
  match binary_normalize 53 1024 z 0 false with
  | S754_infinity _ => None
  | d => Some d
  end.

(** ** Exceptions and the object-state monad *)

Inductive exn : Type :=
  | invalid_argument (what : string)   (* std::invalid_argument *)
  | type_error (what : string)         (* py::type_error *)
  | index_error (what : string)        (* py::index_error *)
  | cast_error                         (* py::cast_error *)
  | error_already_set.                 (* py::error_already_set *)

(** A computation on an object of type [S] that may throw: the object is a
    C++ reference, so whatever was written before a throw stays written. *)
Definition M (S A : Type) : Type := S → (exn + A) * S.

Definition ret {S A} (a : A) : M S A := λ s, (inr a, s).

Definition bind {S A B} (m : M S A) (k : A → M S B) : M S B :=
  λ s, match m s with
       | (inl e, s') => (inl e, s')
       | (inr a, s') => k a s'
       end.

Definition throw {S A} (e : exn) : M S A := λ s, (inl e, s).

(** Read the object through a const accessor. *)
Definition gets {S A} (f : S → A) : M S A := λ s, (inr (f s), s).

(** Call a mutating member function. *)
Definition modify {S} (f : S → S) : M S unit := λ s, (inr tt, f s).

(** [try { m } catch (const py::cast_error&) { throw e; }] *)
Definition catch_cast_error {S A} (m : M S A) (e : exn) : M S A :=
  λ s, match m s with
       | (inl cast_error, s') => (inl e, s')
       | r => r
       end.

(** A block working on a local variable [l] of type [L], initialised to
    [l0], next to the object: only the object outlives the block. *)
Definition with_local {S L A} (l0 : L) (m : M (S * L) A) : M S A :=
  λ s, let '(r, (s', _)) := m (s, l0) in (r, s').

Declare Scope m_scope.
Delimit Scope m_scope with M.
Notation "x <- c1 ;; c2" := (bind c1 (λ x, c2))
  (at level 100, c1 at next level, c2 at level 200, right associativity) : m_scope.
Notation "c1 ;; c2" := (bind c1 (λ _, c2))
  (at level 100, c2 at level 200, right associativity) : m_scope.
Open Scope m_scope.

Definition is_ok {S A} (r : (exn + A) * S) : bool :=
  match r with (inr _, _) => true | (inl _, _) => false end.

(** ** numpy arrays as pybind11 hands them over *)

(** [py::array::c_style], [py::array::f_style], [py::array::forcecast]. *)
Definition c_style : Z := 1.
Definition f_style : Z := 2.
Definition forcecast : Z := 16.

(** A [py::array_t<T>]: its shape, its flag word and the buffer behind
    [data()]. *)
Record array_t (T : Type) : Type := mk_array {
  shape : list Z;
  flags : Z;
  data : list T
}.
Arguments mk_array {T}.
Arguments shape {T}.
Arguments flags {T}.
Arguments data {T}.

(** [pymatrixd], that is [py::array_t<double, f_style | forcecast>]
    ("matrices passed to eigen must be converted to col-major"): pybind11
    converts the argument to a column-major array of doubles before the
    lambda runs, so the array a lambda receives under this type has the
    F-contiguous flag set. *)
Record pymatrixd : Type := mk_pymatrixd {
  pm_array :> array_t double;
  pm_f_style : (Z.land (flags pm_array) f_style =? 0) = false
}.

(** [array.ndim()] and [array.size()] (the product of the dimensions, 1
    for a 0-dimensional array). *)
Definition ndim {T} (a : array_t T) : Z := Z.of_nat (length (shape a)).
Definition size {T} (a : array_t T) : Z := foldr Z.mul 1 (shape a).

(** [array.shape(i)]: pybind11 throws [index_error] for an axis the array
    does not have. *)
Definition shape_at {S T} (a : array_t T) (i : nat) : M S Z :=
  match shape a !! i with
  | Some d => ret d
  | None => throw (index_error "invalid axis")
  end.

(** numpy keeps every dimension non-negative, the element count within
    [ssize_t] and the number of dimensions at most 64. *)
Definition array_wf {T} (a : array_t T) : Prop :=
  Forall (λ d, 0 ≤ d) (shape a) ∧ size a < 2 ^ 63 ∧ ndim a ≤ 64.

(** [std::to_string] on a [size_t]. *)
Definition to_string (n : Z) : string := pretty n.

(** [check_array(array, size = 0, dims = 0, storage = 'X')] *)
Definition check_array {S T} (array : array_t T)
    (size_ dims : Z) (storage : ascii) : M S unit :=
  (if negb (size_ =? 0) && negb (to_size_t (size array) =? size_)
   then throw (invalid_argument ("Expected array of size: " +:+ to_string size_))
   else ret tt) ;;
  (if negb (dims =? 0) && negb (to_size_t (ndim array) =? dims)
   then throw (invalid_argument ("Expected an array of dimension: " +:+ to_string dims))
   else ret tt) ;;
  (if bool_decide (storage = "F"%char) && (Z.land (flags array) f_style =? 0)
   then throw (invalid_argument "Expected a F_CONTIGUOUS array")
   else ret tt) ;;
  (if bool_decide (storage = "C"%char) && (Z.land (flags array) c_style =? 0)
   then throw (invalid_argument "Expected a C_CONTIGUOUS array")
   else ret tt).

(** The default arguments of [check_array]. *)
Definition no_size : Z := 0.
Definition no_dims : Z := 0.
Definition no_storage : ascii := "X"%char.

(** ** Python tuples and the float caster *)

(** pybind11's [handle::cast<float>()] decides which Python objects convert
    to a C++ [float]; it fails with [cast_error] on the others. *)
Class PyCaster : Type := {
  pyobject : Type;
  cast_float : pyobject → option float
}.

(** [for (size_t i = 0; i < n; i++) body(i);] counted down on what is left. *)
Fixpoint for_loop {S} (left : nat) (i : nat) (body : nat → M S unit) : M S unit :=
  match left with
  | O => ret tt
  | Datatypes.S left' => body i ;; for_loop left' (Datatypes.S i) body
  end.

(** [std::array<float, 4>] *)
Definition vec4f : Type := list float.

(** [tuple[i].cast<float>()] *)
Definition tuple_item_cast `{PyCaster} {S} (tuple : list pyobject) (i : nat) : M S float :=
  match tuple !! i with
  | Some x =>
      match cast_float x with
      | Some v => ret v
      | None => throw cast_error
      end
  | None => throw (index_error "tuple index out of range")
  end.

(** [tuple_to_float_array<N>(dst, tuple)]: the object of the computation is
    the destination array. *)
Definition tuple_to_float_array `{PyCaster} (N : nat) (tuple : list pyobject)
    : M (list float) unit :=
  (if (N <? length tuple)%nat
   then throw (invalid_argument ("Expected a tuple of size <= " +:+ to_string (Z.of_nat N)))
   else ret tt) ;;
  catch_cast_error
    (for_loop (length tuple) 0
       (λ i, v <- tuple_item_cast tuple i ;; modify (λ dst, <[i:=v]> dst)))
    (type_error "Expected a tuple of floats").

(** Run a computation on the local variable, or on the object, of a block
    opened by [with_local]. *)
Definition on_local {S L A} (m : M L A) : M (S * L) A :=
  λ '(s, l), let '(r, l') := m l in (r, (s, l')).
Definition on_object {S L A} (m : M S A) : M (S * L) A :=
  λ '(s, l), let '(r, s') := m s in (r, (s', l)).

(** ** The wrapped library *)

(** [viz::mat4d]: sixteen doubles, column-major. *)
Definition mat4d : Type := list double.

(** [std::copy(p, p + 16, m.data())] into a fresh [mat4d]. *)
Definition copy16 (p : list double) : mat4d := take 16 p.

(** [viz::Cloud] *)
Class CloudApi : Type := {
  cloud : Type;
  cloud_new : Z → cloud;
  cloud_new_structured : Z → Z → list float → list float → mat4d → cloud;
  cloud_get_size : cloud → Z;
  cloud_set_range : list Z → cloud → cloud;
  cloud_set_key : list float → cloud → cloud;
  cloud_set_mask : list float → cloud → cloud;
  cloud_set_xyz : list float → cloud → cloud;
  cloud_set_pose : mat4d → cloud → cloud;
  cloud_set_palette : list float → Z → cloud → cloud
}.

(** [viz::Image] *)
Class ImageApi : Type := {
  image : Type;
  image_set_image : Z → Z → list float → image → image;
  image_set_mask : Z → Z → list float → image → image
}.

(** [viz::Cuboid] *)
Class CuboidApi : Type := {
  cuboid : Type;
  cuboid_new : mat4d → vec4f → cuboid;
  cuboid_set_transform : mat4d → cuboid → cuboid;
  cuboid_set_rgba : vec4f → cuboid → cuboid
}.

(** [viz::Label] *)
Class LabelApi : Type := {
  label : Type;
  label_set_rgba : vec4f → label → label
}.

(** [sensor::data_format] and [sensor::sensor_info], with the fields the
    bindings read and the beam calibration the lookup table is made from. *)
Record data_format : Type := {
  pixels_per_column : Z;
  columns_per_frame : Z
}.

Record sensor_info : Type := {
  format : data_format;
  beam_azimuth_angles : list double;
  beam_altitude_angles : list double;
  lidar_origin_to_beam_origin_mm : double;
  extrinsic : mat4d
}.

(** An [Eigen::Array<T, Eigen::Dynamic, 3>]: the coefficients behind
    [data()]. *)
Definition ArrayX3 (T : Type) : Type := list T.

(** [ouster::XYZLut] *)
Record XYZLut : Type := {
  direction : ArrayX3 double;
  offset : ArrayX3 double
}.

(** [ouster::make_xyz_lut] *)
Class LidarScanApi : Type := {
  make_xyz_lut : sensor_info → XYZLut
}.

(** [a.cast<float>()] *)
Definition cast_to_float (a : ArrayX3 double) : ArrayX3 float := double_to_float <$> a.

(** ** Cloud *)

Module Cloud.
Section Bindings.
Context `{CloudApi} `{LidarScanApi}.

(** What the structured constructor hands to [viz::Cloud{...}]. *)
Record ctor_args : Type := {
  arg_w : Z;
  arg_h : Z;
  arg_direction : list float;
  arg_offset : list float;
  arg_extrinsic : mat4d
}.

(** The lambda of [__init__(metadata)] up to the placement new. *)
Definition init_args (info : sensor_info) : ctor_args :=
  let xyz_lut := make_xyz_lut info in
  let direction_ : ArrayX3 float := cast_to_float (direction xyz_lut) in
  let offset_ : ArrayX3 float := cast_to_float (direction xyz_lut) in
  let extrinsica := copy16 (extrinsic info) in
  {| arg_w := columns_per_frame (format info);
     arg_h := pixels_per_column (format info);
     arg_direction := direction_;
     arg_offset := offset_;
     arg_extrinsic := extrinsica |}.

(** [__init__(n)] and [__init__(metadata)] *)
Definition init (n : Z) : cloud := cloud_new n.
Definition init_structured (info : sensor_info) : cloud :=
  let a := init_args info in
  cloud_new_structured (arg_w a) (arg_h a) (arg_direction a) (arg_offset a)
    (arg_extrinsic a).

Definition set_range (range : array_t Z) : M cloud unit :=
  n <- gets cloud_get_size ;;
  check_array range n 2 "C" ;;
  modify (cloud_set_range (data range)).

Definition set_key (key : array_t float) : M cloud unit :=
  n <- gets cloud_get_size ;;
  check_array key n no_dims "C" ;;
  modify (cloud_set_key (data key)).

Definition set_mask (mask : array_t float) : M cloud unit :=
  n <- gets cloud_get_size ;;
  check_array mask (size_t_mul n 4) no_dims "C" ;;
  (if negb (ndim mask =? 2) && negb (ndim mask =? 3)
   then throw (invalid_argument "Expected an array of dimensions: 2 or 3")
   else ret tt) ;;
  modify (cloud_set_mask (data mask)).

Definition set_xyz (xyz : array_t float) : M cloud unit :=
  n <- gets cloud_get_size ;;
  check_array xyz (size_t_mul n 3) no_dims no_storage ;;
  modify (cloud_set_xyz (data xyz)).

Definition set_pose (pose : pymatrixd) : M cloud unit :=
  check_array pose 16 2 "F" ;;
  let posea := copy16 (data pose) in
  modify (cloud_set_pose posea).

Definition set_palette (buf : array_t float) : M cloud unit :=
  check_array buf no_size 2 "C" ;;
  d1 <- shape_at buf 1 ;;
  (if negb (d1 =? 3)
   then throw (invalid_argument "Expected a N x 3 array")
   else ret tt) ;;
  d0 <- shape_at buf 0 ;;
  modify (cloud_set_palette (data buf) d0).
End Bindings.
End Cloud.

(** ** Image *)

Module Image.
Section Bindings.
Context `{ImageApi}.

Definition set_image (img : array_t float) : M image unit :=
  check_array img no_size 2 "C" ;;
  d1 <- shape_at img 1 ;;
  d0 <- shape_at img 0 ;;
  modify (image_set_image d1 d0 (data img)).

Definition set_mask (buf : array_t float) : M image unit :=
  check_array buf no_size 3 "C" ;;
  d2 <- shape_at buf 2 ;;
  (if negb (d2 =? 4)
   then throw (invalid_argument "Expected a M x N x 4 array")
   else ret tt) ;;
  d1 <- shape_at buf 1 ;;
  d0 <- shape_at buf 0 ;;
  modify (image_set_mask d1 d0 (data buf)).
End Bindings.
End Image.


(** ** Cuboid and Label *)

(** The literals [0.0] and [1.0] as [float]. *)
Definition f0 : float := S754_zero false.
Definition f1 : float := S754_finite false 8388608 (-23).

(** [viz::vec4f ar{0.0, 0.0, 0.0, 1.0};] *)
Definition default_rgba : vec4f := [f0; f0; f0; f1].

Module Cuboid.
Section Bindings.
Context `{CuboidApi} `{PyCaster}.

(** [__init__(pose, rgba)]: there is no object before the placement new, so
    the computation runs on [unit] and returns the cuboid. *)
Definition init (pose : array_t double) (rgba : list pyobject) : M unit cuboid :=
  check_array pose 16 2 "F" ;;
  let posea := copy16 (data pose) in
  with_local default_rgba
    (on_local (tuple_to_float_array 4 rgba) ;;
     ar <- on_local (gets id) ;;
     ret (cuboid_new posea ar)).

Definition set_transform (pose : pymatrixd) : M cuboid unit :=
  check_array pose 16 2 "F" ;;
  let posea := copy16 (data pose) in
  modify (cuboid_set_transform posea).

Definition set_rgba (rgba : list pyobject) : M cuboid unit :=
  with_local default_rgba
    (on_local (tuple_to_float_array 4 rgba) ;;
     ar <- on_local (gets id) ;;
     on_object (modify (cuboid_set_rgba ar))).
End Bindings.
End Cuboid.

Module Label.
Section Bindings.
Context `{LabelApi} `{PyCaster}.

Definition set_rgba (rgba : list pyobject) : M label unit :=
  with_local default_rgba
    (on_local (tuple_to_float_array 4 rgba) ;;
     ar <- on_local (gets id) ;;
     on_object (modify (label_set_rgba ar))).
End Bindings.
End Label.

(** ** PointViz: the rendering loop *)

(** Modelled from the spec: [viz::PointViz::run_once], whose body is not
    part of the binding.  A frame-step polls input and renders: it changes
    the scene state, and it reports whether the window was closed, in which
    case the library clears the running flag (the loop leaves Running "on
    stop-flag observed or window closed"). *)
Class PointVizApi : Type := {
  scene : Type;
  run_once : scene → scene * bool
}.

Module PointViz.

(** [const int check_every = 10;] *)
Definition check_every : nat := 10.

(** Where the thread that called [run()] stands in the lambda. *)
Inductive pc_t : Type :=
  | Start                (* before [self.running(true)] *)
  | SetVisible           (* before [self.visible(true)] *)
  | LoopHead             (* evaluating [while (self.running())] *)
  | SigCheck             (* at [PyErr_CheckSignals()] *)
  | Batch (i : nat)      (* in the [for], GIL released, counter [i] *)
  | Finish               (* before [self.visible(false)] *)
  | Returned             (* [run()] has returned *)
  | Thrown (e : exn).    (* [run()] has thrown [e] *)

Section Loop.
Context `{PointVizApi}.

(** The visualizer and the interpreter state the loop depends on.
    [frames] counts the calls of [run_once]. *)
Record world : Type := mk_world {
  pc : pc_t;
  running : bool;        (* the flag behind [running()] / [running(bool)] *)
  visible : bool;        (* the flag behind [visible(bool)] *)
  gil : bool;            (* does the calling thread hold the GIL? *)
  signal_pending : bool; (* a signal whose handler raises is pending *)
  frames : nat;
  the_scene : scene
}.

(** [run()] is entered from Python, holding the GIL. *)
Definition enter (r v sg : bool) (sc : scene) : world :=
  mk_world Start r v true sg 0 sc.

(** One step of the thread executing [run()]. *)
Definition run_step (w : world) : world :=
  match pc w with
  | Start =>
      mk_world SetVisible true (visible w) (gil w) (signal_pending w)
        (frames w) (the_scene w)
  | SetVisible =>
      mk_world LoopHead (running w) true (gil w) (signal_pending w)
        (frames w) (the_scene w)
  | LoopHead =>
      mk_world (if running w then SigCheck else Finish) (running w) (visible w)
        (gil w) (signal_pending w) (frames w) (the_scene w)
  | SigCheck =>
      if signal_pending w
      then mk_world (Thrown error_already_set) (running w) (visible w) (gil w)
             false (frames w) (the_scene w)
      else mk_world (Batch 0) (running w) (visible w) false
             (signal_pending w) (frames w) (the_scene w)
  | Batch i =>
      if (i <? check_every)%nat
      then let '(sc, closed) := run_once (the_scene w) in
           mk_world (Batch (Datatypes.S i))
             (if closed then false else running w) (visible w) (gil w)
             (signal_pending w) (Datatypes.S (frames w)) sc
      else mk_world LoopHead (running w) (visible w) true
             (signal_pending w) (frames w) (the_scene w)
  | Finish =>
      mk_world Returned (running w) false (gil w) (signal_pending w)
        (frames w) (the_scene w)
  | Returned => w
  | Thrown _ => w
  end.

(** What the rest of the process can do between two steps of the loop. *)
Inductive env_act : Type :=
  | call_running (b : bool)            (* a Python thread calls [running(b)] *)
  | mutate_scene (f : scene → scene)   (* a Python thread changes the scene *)
  | deliver_signal.                    (* the process receives a signal *)

(** A Python thread runs only while the loop has released the GIL; a signal
    arrives at any time. *)
Definition env_step (w : world) (a : env_act) : world :=
  match a with
  | call_running b =>
      if gil w then w
      else mk_world (pc w) b (visible w) (gil w) (signal_pending w)
             (frames w) (the_scene w)
  | mutate_scene f =>
      if gil w then w
      else mk_world (pc w) (running w) (visible w) (gil w) (signal_pending w)
             (frames w) (f (the_scene w))
  | deliver_signal =>
      mk_world (pc w) (running w) (visible w) (gil w) true
        (frames w) (the_scene w)
  end.

(** A schedule gives, for each step of the loop, what the rest of the
    process does just before it. *)
Definition schedule : Type := list (list env_act).

Fixpoint exec (sched : schedule) (w : world) : world :=
  match sched with
  | [] => w
  | acts :: rest => exec rest (run_step (foldl env_step w acts))
  end.

(** No thread sets the running flag again. *)
Definition no_restart (a : env_act) : Prop :=
  match a with
  | call_running true => False
  | _ => True
  end.

Definition quiet (sched : schedule) : Prop := Forall (Forall no_restart) sched.

(** [run()] is executing its loop: it has set the flags it sets at entry and
    has not left yet. *)
Definition in_loop (p : pc_t) : Prop :=
  match p with
  | Start | SetVisible | Returned | Thrown _ => False
  | _ => True
  end.

Definition finished (p : pc_t) : Prop :=
  match p with
  | Returned | Thrown _ => True
  | _ => False
  end.

(** The lambda registered as [run]: entered with the flags [r], [v] and a
    pending signal or not, it has made [length sched] steps, interleaved
    with the rest of the process as [sched] says. *)
Definition run (sched : schedule) (r v sg : bool) (sc : scene) : world :=
  exec sched (enter r v sg sc).

(** The frame count is at a batch boundary. *)
Definition at_boundary (n : nat) : Prop := ∃ k : nat, n = (k * check_every)%nat.

(** What holds wherever the loop stands, started by [enter]. *)
Definition run_inv (w : world) : Prop :=
  match pc w with
  | Start => gil w = true ∧ frames w = 0%nat
  | SetVisible => gil w = true ∧ running w = true ∧ frames w = 0%nat
  | LoopHead => gil w = true ∧ visible w = true ∧ at_boundary (frames w)
  | SigCheck =>
      gil w = true ∧ running w = true ∧ visible w = true ∧ at_boundary (frames w)
  | Batch i =>
      gil w = false ∧ visible w = true ∧ (i ≤ check_every)%nat
      ∧ ∃ k : nat, frames w = (k * check_every + i)%nat
  | Finish => visible w = true ∧ at_boundary (frames w)
  | Returned => visible w = false ∧ at_boundary (frames w)
  | Thrown e => e = error_already_set ∧ visible w = true ∧ at_boundary (frames w)
  end.

(** With the running flag cleared: how many frame-steps, and how many
    steps, the loop still takes from [p]. *)
Definition frames_left (p : pc_t) : nat :=
  match p with
  | Batch i => check_every - i
  | _ => 0
  end.

Definition steps_left (p : pc_t) : nat :=
  match p with
  | Batch i => check_every - i + 3
  | LoopHead => 2
  | Finish => 1
  | _ => 0
  end.

(** The flag is cleared and the loop is on its way out. *)
Definition stopping (w : world) : Prop :=
  running w = false ∧
  match pc w with
  | LoopHead | Batch _ | Finish | Returned => True
  | _ => False
  end.
End Loop.
End PointViz.


(** ** Reference instances of the interfaces

    Small executable stand-ins for the wrapped library, used to run the
    bindings on concrete inputs. *)

Module Ref.

(** Modelled from the spec: [viz::Cloud] is not part of the binding; a
    cloud has a point count [n] and a pose count [w], per-point direction
    and offset vectors, an extrinsic transform, and the buffers its setters
    fill: range, key, RGBA mask, xyz, pose and palette.  Unstructured
    clouds have [w = n]; structured ones have [n = w * h]. *)
Record cloud_state : Type := mk_cloud {
  c_n : Z;
  c_w : Z;
  c_direction : list float;
  c_offset : list float;
  c_extrinsic : mat4d;
  c_range : list Z;
  c_key : list float;
  c_mask : list float;
  c_xyz : list float;
  c_pose : mat4d;
  c_palette : list float;
  c_palette_size : Z
}.

Definition take_n {T} (n : Z) (p : list T) : list T := take (Z.to_nat n) p.

#[export] Instance cloud_api : CloudApi := {|
  cloud := cloud_state;
  cloud_new n := mk_cloud n n [] [] [] [] [] [] [] [] [] 0;
  cloud_new_structured w h dir off ext :=
    mk_cloud (w * h) w dir off ext [] [] [] [] [] [] 0;
  cloud_get_size c := c_n c;
  cloud_set_range p c :=
    mk_cloud (c_n c) (c_w c) (c_direction c) (c_offset c) (c_extrinsic c)
      (take_n (c_n c) p) (c_key c) (c_mask c) (c_xyz c) (c_pose c)
      (c_palette c) (c_palette_size c);
  cloud_set_key p c :=
    mk_cloud (c_n c) (c_w c) (c_direction c) (c_offset c) (c_extrinsic c)
      (c_range c) (take_n (c_n c) p) (c_mask c) (c_xyz c) (c_pose c)
      (c_palette c) (c_palette_size c);
  cloud_set_mask p c :=
    mk_cloud (c_n c) (c_w c) (c_direction c) (c_offset c) (c_extrinsic c)
      (c_range c) (c_key c) (take_n (4 * c_n c) p) (c_xyz c) (c_pose c)
      (c_palette c) (c_palette_size c);
  cloud_set_xyz p c :=
    mk_cloud (c_n c) (c_w c) (c_direction c) (c_offset c) (c_extrinsic c)
      (c_range c) (c_key c) (c_mask c) (take_n (3 * c_n c) p) (c_pose c)
      (c_palette c) (c_palette_size c);
  cloud_set_pose m c :=
    mk_cloud (c_n c) (c_w c) (c_direction c) (c_offset c) (c_extrinsic c)
      (c_range c) (c_key c) (c_mask c) (c_xyz c) m
      (c_palette c) (c_palette_size c);
  cloud_set_palette p k c :=
    mk_cloud (c_n c) (c_w c) (c_direction c) (c_offset c) (c_extrinsic c)
      (c_range c) (c_key c) (c_mask c) (c_xyz c) (c_pose c)
      (take_n (3 * k) p) k
|}.

(** Modelled from the spec: [viz::Image] is not part of the binding; an
    image is an [h x w] scalar buffer with an optional [h x w x 4] mask. *)
Record image_state : Type := mk_image {
  i_w : Z;
  i_h : Z;
  i_pixels : list float;
  i_mask_w : Z;
  i_mask_h : Z;
  i_mask : list float
}.

#[export] Instance image_api : ImageApi := {|
  image := image_state;
  image_set_image w h p i :=
    mk_image w h (take_n (w * h) p) (i_mask_w i) (i_mask_h i) (i_mask i);
  image_set_mask w h p i :=
    mk_image (i_w i) (i_h i) (i_pixels i) w h (take_n (w * h * 4) p)
|}.

(** Modelled from the spec: [viz::Cuboid] is not part of the binding; a
    cuboid is a 4x4 pose transform plus an RGBA color. *)
Record cuboid_state : Type := mk_cuboid {
  q_pose : mat4d;
  q_rgba : vec4f
}.

#[export] Instance cuboid_api : CuboidApi := {|
  cuboid := cuboid_state;
  cuboid_new := mk_cuboid;
  cuboid_set_transform m q := mk_cuboid m (q_rgba q);
  cuboid_set_rgba c q := mk_cuboid (q_pose q) c
|}.

(** Modelled from the spec: [viz::Label] is not part of the binding; of a
    label only the text and the color matter here. *)
Record label_state : Type := mk_label {
  l_text : string;
  l_rgba : vec4f
}.

#[export] Instance label_api : LabelApi := {|
  label := label_state;
  label_set_rgba c l := mk_label (l_text l) c
|}.

(** The Python values the examples use, and pybind11's conversion of them
    to [float]: a float is narrowed, an int goes to [double] first and then
    to [float] and does not convert when it is out of the range of
    [double], strings and [None] do not convert. *)
Inductive py_value : Type :=
  | PyFloat (d : double)
  | PyLong (z : Z)
  | PyStr (s : string)
  | PyNone.

#[export] Instance py_caster : PyCaster := {|
  pyobject := py_value;
  cast_float x :=
    match x with
    | PyFloat d => Some (double_to_float d)
    | PyLong z => double_to_float <$> double_of_Z z
    | PyStr _ | PyNone => None
    end
|}.

(** A lidar-scan library whose lookup table for the sensor at hand is
    [t]. *)
Definition lut_api (t : XYZLut) : LidarScanApi := {| make_xyz_lut := λ _, t |}.

(** A visualizer whose scene is a frame counter and whose window closes
    during the frame-step numbered [close_at]. *)
Definition point_viz_api (close_at : nat) : PointVizApi := {|
  scene := nat;
  run_once n := (Datatypes.S n, (n =? close_at)%nat)
|}.

(** Some values: the identity pose, column-major and F-contiguous, and a
    few doubles. *)
Definition d0 : double := S754_zero false.
Definition d1 : double := S754_finite false 4503599627370496 (-52).
Definition d_half : double := S754_finite false 4503599627370496 (-53).

Definition identity_pose : array_t double :=
  mk_array [4; 4] (Z.lor f_style forcecast)
    [d1; d0; d0; d0;  d0; d1; d0; d0;  d0; d0; d1; d0;  d0; d0; d0; d1].

Definition f_half : float := S754_finite false 8388608 (-24).

(** Clouds of two points and of no point, and some buffers: C-contiguous
    unless said otherwise. *)
Definition cloud2 : cloud := Cloud.init 2.
Definition cloud0 : cloud := Cloud.init 0.

Definition range_1x2 : array_t Z := mk_array [1; 2] c_style [7; 9].
Definition range_2 : array_t Z := mk_array [2] (Z.lor c_style f_style) [7; 9].
Definition range_1x5 : array_t Z := mk_array [1; 5] c_style [1; 2; 3; 4; 5].
Definition range_2x1_strided : array_t Z := mk_array [2; 1] 0 [7; 0; 9; 0].
Definition key_2 : array_t float := mk_array [2] (Z.lor c_style f_style) [f0; f1].
Definition mask_2x4 : array_t float :=
  mk_array [2; 4] c_style [f0; f0; f0; f1; f1; f0; f0; f1].
Definition xyz_3x2 : array_t float :=
  mk_array [3; 2] c_style [f0; f1; f0; f1; f0; f1].
Definition xyz_2 : array_t float := mk_array [2] (Z.lor c_style f_style) [f0; f1].
Definition palette_2x3 : array_t float :=
  mk_array [2; 3] c_style [f0; f0; f0; f1; f1; f1].
Definition palette_3x2 : array_t float :=
  mk_array [3; 2] c_style [f0; f0; f0; f1; f1; f1].
Definition palette_6 : array_t float :=
  mk_array [6] (Z.lor c_style f_style) [f0; f0; f0; f1; f1; f1].

(** A red cuboid and a red label, and some color tuples. *)
Definition red_cuboid : cuboid := mk_cuboid (data identity_pose) [f1; f0; f0; f1].
Definition red_label : label := mk_label "stop" [f1; f0; f0; f1].

Definition tuple_of_5 : list pyobject :=
  [PyLong 1; PyLong 0; PyLong 0; PyLong 1; PyLong 1].
Definition tuple_rgb : list pyobject := [PyLong 1; PyFloat d_half; PyLong 0].
Definition tuple_name : list pyobject := [PyStr "red"].
Definition tuple_rgb_name : list pyobject := [PyLong 1; PyStr "a"; PyLong 0].
Definition tuple_of_5_names : list pyobject :=
  [PyStr "r"; PyStr "g"; PyStr "b"; PyStr "a"; PyStr "x"].

(** A sensor of one beam and one column, and a lookup table for it whose
    direction is the unit vector along x and whose offset is half of it. *)
Definition sensor_1x1 : sensor_info := {|
  format := {| pixels_per_column := 1; columns_per_frame := 1 |};
  beam_azimuth_angles := [d0];
  beam_altitude_angles := [d0];
  lidar_origin_to_beam_origin_mm := d_half;
  extrinsic := data identity_pose
|}.

Definition lut_1x1 : XYZLut := {|
  direction := [d1; d0; d0];
  offset := [d_half; d0; d0]
|}.

End Ref.


(** ** The buffer-accepting setters as one method table *)

Section Setters.
Context `{CloudApi} `{ImageApi} `{CuboidApi}.

(** The methods that take a numpy buffer, with their argument. *)
Inductive buffer_setter : Type :=
  | Cloud_set_range (a : array_t Z)
  | Cloud_set_key (a : array_t float)
  | Cloud_set_mask (a : array_t float)
  | Cloud_set_xyz (a : array_t float)
  | Cloud_set_pose (a : pymatrixd)
  | Cloud_set_palette (a : array_t float)
  | Image_set_image (a : array_t float)
  | Image_set_mask (a : array_t float)
  | Cuboid_set_transform (a : pymatrixd).

(** The class a method belongs to. *)
Definition receiver (f : buffer_setter) : Type :=
  match f with
  | Cloud_set_range _ | Cloud_set_key _ | Cloud_set_mask _ | Cloud_set_xyz _
  | Cloud_set_pose _ | Cloud_set_palette _ => cloud
  | Image_set_image _ | Image_set_mask _ => image
  | Cuboid_set_transform _ => cuboid
  end.

(** The lambda registered for the method. *)
Definition call (f : buffer_setter) : M (receiver f) unit :=
  match f with
  | Cloud_set_range a => Cloud.set_range a
  | Cloud_set_key a => Cloud.set_key a
  | Cloud_set_mask a => Cloud.set_mask a
  | Cloud_set_xyz a => Cloud.set_xyz a
  | Cloud_set_pose a => Cloud.set_pose a
  | Cloud_set_palette a => Cloud.set_palette a
  | Image_set_image a => Image.set_image a
  | Image_set_mask a => Image.set_mask a
  | Cuboid_set_transform a => Cuboid.set_transform a
  end.

(** The shape and the flag word of the buffer a method is called with. *)
Definition buffer_meta (f : buffer_setter) : array_t unit :=
  match f with
  | Cloud_set_range a => mk_array (shape a) (flags a) []
  | Cloud_set_key a | Cloud_set_mask a | Cloud_set_xyz a | Cloud_set_palette a
  | Image_set_image a | Image_set_mask a => mk_array (shape a) (flags a) []
  | Cloud_set_pose a | Cuboid_set_transform a => mk_array (shape a) (flags a) []
  end.

(** What each setter asks of its buffer, in the terms of the validation
    policy: an element count (none when the count asked for is 0), the
    allowed numbers of dimensions (any when the list is empty), a
    C-contiguous layout or not, and the extent asked of one axis. *)
Definition count_asked (k : Z) : option Z := if k =? 0 then None else Some k.

Definition required_count (f : buffer_setter) : receiver f → option Z :=
  match f with
  | Cloud_set_range _ | Cloud_set_key _ => λ c, count_asked (cloud_get_size c)
  | Cloud_set_mask _ => λ c, count_asked (size_t_mul (cloud_get_size c) 4)
  | Cloud_set_xyz _ => λ c, count_asked (size_t_mul (cloud_get_size c) 3)
  | Cloud_set_pose _ => λ _, Some 16
  | Cuboid_set_transform _ => λ _, Some 16
  | Cloud_set_palette _ => λ _, None
  | Image_set_image _ | Image_set_mask _ => λ _, None
  end.

Definition required_ndim (f : buffer_setter) : list Z :=
  match f with
  | Cloud_set_range _ | Cloud_set_pose _ | Cloud_set_palette _
  | Image_set_image _ | Cuboid_set_transform _ => [2]
  | Cloud_set_mask _ => [2; 3]
  | Image_set_mask _ => [3]
  | Cloud_set_key _ | Cloud_set_xyz _ => []
  end.

Definition requires_c_layout (f : buffer_setter) : bool :=
  match f with
  | Cloud_set_xyz _ | Cloud_set_pose _ | Cuboid_set_transform _ => false
  | _ => true
  end.

Definition required_extent (f : buffer_setter) : option (nat * Z) :=
  match f with
  | Cloud_set_palette _ => Some (1%nat, 3)
  | Image_set_mask _ => Some (2%nat, 4)
  | _ => None
  end.

(** The buffer misses something the setter asks for. *)
Definition fails_validation (f : buffer_setter) (o : receiver f) : Prop :=
  (∃ k, required_count f o = Some k ∧ size (buffer_meta f) ≠ k)
  ∨ (required_ndim f ≠ [] ∧ ndim (buffer_meta f) ∉ required_ndim f)
  ∨ (requires_c_layout f = true ∧ Z.land (flags (buffer_meta f)) c_style = 0)
  ∨ (∃ axis d, required_extent f = Some (axis, d)
               ∧ shape (buffer_meta f) !! axis ≠ Some d).
End Setters.


(** ** Further notions for the rendering loop *)

Module Loop.
Section Notions.
Import PointViz.
Context `{PointVizApi}.

(** The GIL is released during a batch and held everywhere else. *)
Definition gil_inv (w : world) : Prop :=
  match pc w with
  | Batch _ => gil w = false
  | _ => gil w = true
  end.

(** With a signal pending: how many steps the loop still takes from [p]. *)
Definition interrupt_steps_left (p : pc_t) : nat :=
  match p with
  | Start => 4
  | SetVisible => 3
  | LoopHead => 2
  | SigCheck => 1
  | Batch i => check_every - i + 3
  | Finish => 1
  | Returned | Thrown _ => 0
  end.

(** The rest of the process neither asks the loop to stop nor delivers a
    signal. *)
Definition benign (a : env_act) : Prop :=
  match a with
  | call_running false | deliver_signal => False
  | _ => True
  end.

Definition undisturbed (sched : schedule) : Prop := Forall (Forall benign) sched.




(** The loop is running and nothing asks it to end. *)
Definition alive (w : world) : Prop :=
  signal_pending w = false ∧
  match pc w with
  | Start => True
  | SetVisible | LoopHead | SigCheck | Batch _ => running w = true
  | Finish | Returned | Thrown _ => False
  end.
End Notions.
End Loop.

(** ** Further sample inputs *)

Module Samples.
Import Ref.

(** Poses as the lambdas receive them, F-contiguous: sixteen doubles as
    2 x 8 and as a flat array; and an array of three doubles. *)
Definition sixteen : list double :=
  [d1; d0; d0; d0;  d0; d1; d0; d0;  d0; d0; d1; d0;  d0; d0; d0; d1].
Definition pose_2x8 : pymatrixd :=
  mk_pymatrixd (mk_array [2; 8] f_style sixteen) eq_refl.
Definition pose_flat : pymatrixd :=
  mk_pymatrixd (mk_array [16] (Z.lor c_style f_style) sixteen) eq_refl.
Definition pose_3 : array_t double := mk_array [3] (Z.lor c_style f_style) [d1; d0; d0].

(** Buffers for a cloud of two points. *)
Definition key_1x2 : array_t float := mk_array [1; 2] c_style [f0; f1].
Definition mask_8 : array_t float :=
  mk_array [8] (Z.lor c_style f_style) [f0; f0; f0; f1; f1; f0; f0; f1].
Definition mask_1x2x4 : array_t float :=
  mk_array [1; 2; 4] c_style [f0; f0; f0; f1; f1; f0; f0; f1].
Definition xyz_strided : array_t float :=
  mk_array [2; 3] 0 [f0; f1; f0; f1; f0; f1; f0; f1; f0; f1; f0; f1].

(** Images: 2 rows of 3 pixels, and masks for them. *)
Definition no_image : image := mk_image 0 0 [] 0 0 [].
Definition image_2x3 : array_t float := mk_array [2; 3] c_style [f0; f1; f0; f1; f0; f1].
Definition image_6 : array_t float :=
  mk_array [6] (Z.lor c_style f_style) [f0; f1; f0; f1; f0; f1].
Definition image_mask_1x1x4 : array_t float := mk_array [1; 1; 4] c_style [f0; f0; f0; f1].
Definition image_mask_1x4x1 : array_t float := mk_array [1; 4; 1] c_style [f0; f0; f0; f1].

(** Color tuples. *)
Definition tuple_empty : list pyobject := [].
Definition tuple_rgba : list pyobject := [PyLong 0; PyLong 1; PyFloat d_half; PyFloat d_half].
Definition tuple_r_name_b : list pyobject := [PyLong 1; PyStr "g"; PyLong 1].

(** A translucent cuboid. *)
Definition glass_cuboid : cuboid := mk_cuboid (data identity_pose) [f1; f1; f1; f_half].

(** Visualizers whose window stays open, and whose window is closed. *)
Definition open_window : PointVizApi := {|
  scene := nat;
  run_once n := (Datatypes.S n, false)
|}.
Definition closed_window : PointVizApi := {|
  scene := nat;
  run_once n := (Datatypes.S n, true)
|}.

(** Another lookup table with the directions of [lut_1x1]. *)
Definition lut_1x1_shifted : XYZLut := {|
  direction := [d1; d0; d0];
  offset := [d0; d0; d1]
|}.
End Samples.


(** * Properties *)

(** ** Argument checks *)

Lemma to_size_t_small (x : Z) : 0 ≤ x < 2 ^ 64 → to_size_t x = x.
Proof. intros Hx. unfold to_size_t, size_t_modulus. apply Z.mod_small. lia. Qed.

Lemma size_nonneg (l : list Z) : Forall (λ d, 0 ≤ d) l → 0 ≤ foldr Z.mul 1 l.
Proof.
  induction 1 as [|d l Hd _ IH]; simpl; [lia|]. apply Z.mul_nonneg_nonneg; assumption.
Qed.

Lemma array_wf_size {T} (a : array_t T) : array_wf a → to_size_t (size a) = size a.
Proof.
  intros (Hdims & Hsz & _). apply to_size_t_small. split.
  - apply size_nonneg, Hdims.
  - lia.
Qed.

Lemma array_wf_ndim {T} (a : array_t T) : array_wf a → to_size_t (ndim a) = ndim a.
Proof.
  intros (_ & _ & Hnd). apply to_size_t_small. unfold ndim in *. lia.
Qed.

Ltac reflect_tests :=
  repeat match goal with
  | H : bool_decide _ = true |- _ => apply bool_decide_eq_true in H
  | H : bool_decide _ = false |- _ => apply bool_decide_eq_false in H
  | H : (_ =? _) = true |- _ => apply Z.eqb_eq in H
  | H : (_ =? _) = false |- _ => apply Z.eqb_neq in H
  end.

(** What [check_array] lets through, and what it throws otherwise; it never
    touches the object. *)
Lemma check_array_cases {S T} (a : array_t T) (sz dims : Z) (st : ascii) (s : S) :
  (check_array a sz dims st s = (inr tt, s)
   ∧ (sz = 0 ∨ to_size_t (size a) = sz)
   ∧ (dims = 0 ∨ to_size_t (ndim a) = dims)
   ∧ (st = "F"%char → Z.land (flags a) f_style ≠ 0)
   ∧ (st = "C"%char → Z.land (flags a) c_style ≠ 0))
  ∨ (∃ msg, check_array a sz dims st s = (inl (invalid_argument msg), s)
     ∧ ((sz ≠ 0 ∧ to_size_t (size a) ≠ sz)
        ∨ (dims ≠ 0 ∧ to_size_t (ndim a) ≠ dims)
        ∨ (st = "F"%char ∧ Z.land (flags a) f_style = 0)
        ∨ (st = "C"%char ∧ Z.land (flags a) c_style = 0))).
Proof.
  unfold check_array, bind, throw, ret.
  destruct (sz =? 0) eqn:Hsz; destruct (to_size_t (size a) =? sz) eqn:Hsize;
    destruct (dims =? 0) eqn:Hd; destruct (to_size_t (ndim a) =? dims) eqn:Hnd;
    destruct (bool_decide (st = "F"%char)) eqn:HF;
    destruct (Z.land (flags a) f_style =? 0) eqn:Hf;
    destruct (bool_decide (st = "C"%char)) eqn:HC;
    destruct (Z.land (flags a) c_style =? 0) eqn:Hc; simpl;
    reflect_tests;
    first [ left; split; [reflexivity|]; repeat split; solve [auto | congruence | intros; congruence]
          | right; eexists; split; [reflexivity|]; solve [auto 6] ].
Qed.

Lemma ndim_lookup {T} (a : array_t T) (k : Z) (i : nat) :
  to_size_t (ndim a) = k → Z.of_nat i < k → is_Some (shape a !! i).
Proof.
  unfold to_size_t, size_t_modulus, ndim. intros Hk Hi.
  apply lookup_lt_is_Some.
  destruct (decide (i < length (shape a))%nat) as [|Hge]; [assumption|].
  exfalso.
  pose proof (Z.mod_pos_bound (Z.of_nat (length (shape a))) (2 ^ 64) eq_refl) as Hb.
  rewrite Z.mod_small in Hk; lia.
Qed.

(** ** Setters: either the library call on the untouched object, or
    [invalid_argument] and the object as it was *)

Ltac use_check a sz dims st s :=
  let E := fresh "E" in
  destruct (check_array_cases a sz dims st s)
    as [(E & ?Hsz & ?Hdims & ?HF & ?HC) | (?msg & E & ?Hbad)];
  rewrite E; clear E; cbn [fst snd].

Ltac split_bad Hbad :=
  destruct Hbad as [[? ?]|[[? ?]|[[? ?]|[? ?]]]];
  try solve [exfalso; match goal with Hne : _ ≠ _ |- _ => apply Hne; reflexivity end];
  try discriminate; auto.

Section SetterCases.
Context `{CloudApi} `{ImageApi} `{CuboidApi}.

Lemma set_range_cases (a : array_t Z) (c : cloud) :
  (Cloud.set_range a c = (inr tt, cloud_set_range (data a) c)
   ∧ (cloud_get_size c = 0 ∨ to_size_t (size a) = cloud_get_size c)
   ∧ to_size_t (ndim a) = 2 ∧ Z.land (flags a) c_style ≠ 0)
  ∨ (∃ msg, Cloud.set_range a c = (inl (invalid_argument msg), c)
     ∧ ((cloud_get_size c ≠ 0 ∧ to_size_t (size a) ≠ cloud_get_size c)
        ∨ to_size_t (ndim a) ≠ 2 ∨ Z.land (flags a) c_style = 0)).
Proof.
  unfold Cloud.set_range, bind, gets, modify.
  use_check a (cloud_get_size c) 2 "C"%char c.
  - left. repeat split; [assumption | destruct Hdims; [discriminate | assumption] | auto].
  - right. exists msg. split; [reflexivity|].
    split_bad Hbad.
Qed.

Lemma set_key_cases (a : array_t float) (c : cloud) :
  (Cloud.set_key a c = (inr tt, cloud_set_key (data a) c)
   ∧ (cloud_get_size c = 0 ∨ to_size_t (size a) = cloud_get_size c)
   ∧ Z.land (flags a) c_style ≠ 0)
  ∨ (∃ msg, Cloud.set_key a c = (inl (invalid_argument msg), c)
     ∧ ((cloud_get_size c ≠ 0 ∧ to_size_t (size a) ≠ cloud_get_size c)
        ∨ Z.land (flags a) c_style = 0)).
Proof.
  unfold Cloud.set_key, bind, gets, modify.
  use_check a (cloud_get_size c) no_dims "C"%char c.
  - left. repeat split; auto.
  - right. exists msg. split; [reflexivity|].
    split_bad Hbad.
Qed.

Lemma set_mask_cases (a : array_t float) (c : cloud) :
  (Cloud.set_mask a c = (inr tt, cloud_set_mask (data a) c)
   ∧ (size_t_mul (cloud_get_size c) 4 = 0
      ∨ to_size_t (size a) = size_t_mul (cloud_get_size c) 4)
   ∧ Z.land (flags a) c_style ≠ 0 ∧ (ndim a = 2 ∨ ndim a = 3))
  ∨ (∃ msg, Cloud.set_mask a c = (inl (invalid_argument msg), c)
     ∧ ((size_t_mul (cloud_get_size c) 4 ≠ 0
         ∧ to_size_t (size a) ≠ size_t_mul (cloud_get_size c) 4)
        ∨ Z.land (flags a) c_style = 0 ∨ (ndim a ≠ 2 ∧ ndim a ≠ 3))).
Proof.
  unfold Cloud.set_mask, bind, gets, modify, throw, ret.
  use_check a (size_t_mul (cloud_get_size c) 4) no_dims "C"%char c.
  - destruct (ndim a =? 2) eqn:H2; destruct (ndim a =? 3) eqn:H3; simpl;
      reflect_tests;
      first [ left; repeat split; solve [auto]
            | right; eexists; split; [reflexivity|]; auto ].
  - right. exists msg. split; [reflexivity|].
    split_bad Hbad.
Qed.

Lemma set_xyz_cases (a : array_t float) (c : cloud) :
  (Cloud.set_xyz a c = (inr tt, cloud_set_xyz (data a) c)
   ∧ (size_t_mul (cloud_get_size c) 3 = 0
      ∨ to_size_t (size a) = size_t_mul (cloud_get_size c) 3))
  ∨ (∃ msg, Cloud.set_xyz a c = (inl (invalid_argument msg), c)
     ∧ size_t_mul (cloud_get_size c) 3 ≠ 0
     ∧ to_size_t (size a) ≠ size_t_mul (cloud_get_size c) 3).
Proof.
  unfold Cloud.set_xyz, bind, gets, modify.
  use_check a (size_t_mul (cloud_get_size c) 3) no_dims no_storage c.
  - left. split; auto.
  - right. exists msg. split; [reflexivity|].
    split_bad Hbad.
Qed.

Lemma set_pose_cases (a : pymatrixd) (c : cloud) :
  (Cloud.set_pose a c = (inr tt, cloud_set_pose (copy16 (data a)) c)
   ∧ to_size_t (size a) = 16 ∧ to_size_t (ndim a) = 2)
  ∨ (∃ msg, Cloud.set_pose a c = (inl (invalid_argument msg), c)).
Proof.
  unfold Cloud.set_pose, bind, modify.
  use_check a 16 2 "F"%char c; [left | right; eauto].
  split; [reflexivity|].
  split; [destruct Hsz | destruct Hdims]; first [discriminate | assumption].
Qed.

Lemma set_palette_cases (a : array_t float) (c : cloud) :
  (∃ n, Cloud.set_palette a c = (inr tt, cloud_set_palette (data a) n c)
   ∧ to_size_t (ndim a) = 2 ∧ Z.land (flags a) c_style ≠ 0
   ∧ shape a !! 0%nat = Some n ∧ shape a !! 1%nat = Some 3)
  ∨ (∃ msg, Cloud.set_palette a c = (inl (invalid_argument msg), c)
     ∧ (to_size_t (ndim a) ≠ 2 ∨ Z.land (flags a) c_style = 0
        ∨ shape a !! 1%nat ≠ Some 3)).
Proof.
  unfold Cloud.set_palette, bind, modify, shape_at, throw, ret.
  use_check a no_size 2 "C"%char c.
  - destruct Hdims as [|Hnd]; [discriminate|].
    destruct (ndim_lookup a 2 1 Hnd) as [d1 E1]; [lia|].
    destruct (ndim_lookup a 2 0 Hnd) as [d0 E0]; [lia|].
    rewrite E1, E0. destruct (d1 =? 3) eqn:H3; simpl; reflect_tests.
    + subst d1. left. exists d0. auto.
    + right. eexists. split; [reflexivity|].
      right; right. congruence.
  - right. exists msg. split; [reflexivity|].
    split_bad Hbad.
Qed.

Lemma set_image_cases (a : array_t float) (i : image) :
  (∃ w h, Image.set_image a i = (inr tt, image_set_image w h (data a) i)
          ∧ to_size_t (ndim a) = 2 ∧ Z.land (flags a) c_style ≠ 0)
  ∨ (∃ msg, Image.set_image a i = (inl (invalid_argument msg), i)).
Proof.
  unfold Image.set_image, bind, modify, shape_at, throw, ret.
  use_check a no_size 2 "C"%char i; [|right; eauto].
  destruct Hdims as [|Hnd]; [discriminate|].
  destruct (ndim_lookup a 2 1 Hnd) as [d1 E1]; [lia|].
  destruct (ndim_lookup a 2 0 Hnd) as [d0 E0]; [lia|].
  rewrite E1, E0. left. exists d1, d0. auto.
Qed.

Lemma image_set_mask_cases (a : array_t float) (i : image) :
  (∃ w h, Image.set_mask a i = (inr tt, image_set_mask w h (data a) i)
          ∧ to_size_t (ndim a) = 3 ∧ Z.land (flags a) c_style ≠ 0
          ∧ shape a !! 2%nat = Some 4)
  ∨ (∃ msg, Image.set_mask a i = (inl (invalid_argument msg), i)).
Proof.
  unfold Image.set_mask, bind, modify, shape_at, throw, ret.
  use_check a no_size 3 "C"%char i; [|right; eauto].
  destruct Hdims as [|Hnd]; [discriminate|].
  destruct (ndim_lookup a 3 2 Hnd) as [d2 E2]; [lia|].
  destruct (ndim_lookup a 3 1 Hnd) as [d1 E1]; [lia|].
  destruct (ndim_lookup a 3 0 Hnd) as [d0 E0]; [lia|].
  rewrite E2. destruct (d2 =? 4) eqn:H4; simpl; [|right; eauto].
  reflect_tests. subst d2. rewrite E1, E0. left. exists d1, d0. auto.
Qed.

Lemma set_transform_cases (a : pymatrixd) (q : cuboid) :
  (Cuboid.set_transform a q = (inr tt, cuboid_set_transform (copy16 (data a)) q)
   ∧ to_size_t (size a) = 16 ∧ to_size_t (ndim a) = 2)
  ∨ (∃ msg, Cuboid.set_transform a q = (inl (invalid_argument msg), q)).
Proof.
  unfold Cuboid.set_transform, bind, modify.
  use_check a 16 2 "F"%char q; [left | right; eauto].
  split; [reflexivity|].
  split; [destruct Hsz | destruct Hdims]; first [discriminate | assumption].
Qed.

End SetterCases.

(** ** Element counts of the per-point buffers *)

Lemma size_t_mul_small (n k : Z) : 0 ≤ n → 0 ≤ k → k * n < 2 ^ 64 → size_t_mul n k = k * n.
Proof.
  intros Hn Hk Hlt. unfold size_t_mul. rewrite to_size_t_small; lia.
Qed.

Lemma is_ok_inl {S A} (e : exn) (s : S) : is_ok (A:=A) (inl e, s) = true → False.
Proof. discriminate. Qed.

(** Well-formedness of a concrete array. *)
Ltac wf_by_computation :=
  split; [ repeat (apply List.Forall_cons; [lia|]); apply List.Forall_nil
         | split; vm_compute; congruence ].

Import Ref.

(** C3, as stated, fails: a cloud of 2 points takes an xyz buffer of 6
    elements and refuses one of 2 elements. *)
Lemma set_xyz_count_counterexample :
  cloud_get_size cloud2 = 2 ∧
  size xyz_3x2 = 6 ∧ is_ok (Cloud.set_xyz xyz_3x2 cloud2) = true ∧
  size xyz_2 = 2 ∧
  Cloud.set_xyz xyz_2 cloud2 = (inl (invalid_argument "Expected array of size: 6"), cloud2).
Proof. repeat split. Qed.

(** C3, amended.  For a cloud of [n > 0] points ([4 n] within [size_t]),
    [set_range] and [set_key] accept a buffer only if it has exactly [n]
    elements, [set_mask] only if it has exactly [4 n], and [set_xyz] only
    if it has exactly [3 n]; a buffer of any other element count is
    rejected with [invalid_argument] and the cloud is left as it was. *)
Theorem per_point_buffer_counts `{CloudApi} (c : cloud) (n : Z)
    (range : array_t Z) (key mask xyz : array_t float) :
  cloud_get_size c = n → 0 < n → 4 * n < 2 ^ 64 →
  array_wf range → array_wf key → array_wf mask → array_wf xyz →
  (is_ok (Cloud.set_range range c) = true → size range = n) ∧
  (is_ok (Cloud.set_key key c) = true → size key = n) ∧
  (is_ok (Cloud.set_mask mask c) = true → size mask = 4 * n) ∧
  (is_ok (Cloud.set_xyz xyz c) = true → size xyz = 3 * n) ∧
  (size range ≠ n →
     ∃ msg, Cloud.set_range range c = (inl (invalid_argument msg), c)) ∧
  (size key ≠ n →
     ∃ msg, Cloud.set_key key c = (inl (invalid_argument msg), c)) ∧
  (size mask ≠ 4 * n →
     ∃ msg, Cloud.set_mask mask c = (inl (invalid_argument msg), c)) ∧
  (size xyz ≠ 3 * n →
     ∃ msg, Cloud.set_xyz xyz c = (inl (invalid_argument msg), c)).
Proof.
  intros Hn Hpos Hbound Wr Wk Wm Wx.
  pose proof (array_wf_size _ Wr) as Sr. pose proof (array_wf_size _ Wk) as Sk.
  pose proof (array_wf_size _ Wm) as Sm. pose proof (array_wf_size _ Wx) as Sx.
  assert (M4 : size_t_mul (cloud_get_size c) 4 = 4 * n)
    by (rewrite Hn; apply size_t_mul_small; lia).
  assert (M3 : size_t_mul (cloud_get_size c) 3 = 3 * n)
    by (rewrite Hn; apply size_t_mul_small; lia).
  destruct (set_range_cases range c) as [(Er & Cr & _) | (mr & Er & Br)];
  destruct (set_key_cases key c) as [(Ek & Ck & _) | (mk & Ek & Bk)];
  destruct (set_mask_cases mask c) as [(Em & Cm & _) | (mm & Em & Bm)];
  destruct (set_xyz_cases xyz c) as [(Ex & Cx) | (mx & Ex & Bx)];
  rewrite Er, Ek, Em, Ex; rewrite ?M4, ?M3, ?Sr, ?Sk, ?Sm, ?Sx, ?Hn in *;
  repeat split; intros Hyp;
    try (exfalso; exact (is_ok_inl _ _ Hyp));
    try (eexists; reflexivity);
    try lia.
Qed.

Lemma per_point_buffer_counts_witness :
  (is_ok (Cloud.set_range range_1x2 cloud2) = true → size range_1x2 = 2) ∧
  (is_ok (Cloud.set_key key_2 cloud2) = true → size key_2 = 2) ∧
  (is_ok (Cloud.set_mask mask_2x4 cloud2) = true → size mask_2x4 = 4 * 2) ∧
  (is_ok (Cloud.set_xyz xyz_3x2 cloud2) = true → size xyz_3x2 = 3 * 2) ∧
  (size range_1x2 ≠ 2 →
     ∃ msg, Cloud.set_range range_1x2 cloud2 = (inl (invalid_argument msg), cloud2)) ∧
  (size key_2 ≠ 2 →
     ∃ msg, Cloud.set_key key_2 cloud2 = (inl (invalid_argument msg), cloud2)) ∧
  (size mask_2x4 ≠ 4 * 2 →
     ∃ msg, Cloud.set_mask mask_2x4 cloud2 = (inl (invalid_argument msg), cloud2)) ∧
  (size xyz_3x2 ≠ 3 * 2 →
     ∃ msg, Cloud.set_xyz xyz_3x2 cloud2 = (inl (invalid_argument msg), cloud2)).
Proof.
  apply (per_point_buffer_counts cloud2 2 range_1x2 key_2 mask_2x4 xyz_3x2);
    first [ reflexivity | lia | wf_by_computation ].
Defined.

(** ** No partial writes *)

(** C4, as stated, fails: a buffer of the wrong element count, and a buffer
    of the wrong layout, that raise no error.  A cloud without points
    takes a range buffer of five elements, and a cloud of two points takes
    an xyz buffer that is not contiguous and is changed by it. *)
Lemma unvalidated_buffer_counterexample :
  (cloud_get_size cloud0 = 0 ∧ size range_1x5 = 5
   ∧ is_ok (call (Cloud_set_range range_1x5) cloud0) = true) ∧
  (Z.land (flags Samples.xyz_strided) (Z.lor c_style f_style) = 0
   ∧ is_ok (call (Cloud_set_xyz Samples.xyz_strided) cloud2) = true
   ∧ snd (call (Cloud_set_xyz Samples.xyz_strided) cloud2) ≠ cloud2).
Proof. repeat split. discriminate. Qed.

Ltac no_fault Hfault :=
  let k := fresh "k" in
  let Hk := fresh "Hk" in
  let Hne := fresh "Hne" in
  destruct Hfault as [(k & Hk & Hne) | [(Hk & Hne) | [(Hk & Hne) | (k & ?d & Hk & Hne)]]];
  try (exfalso; apply Hk; reflexivity);
  unfold count_asked in *; simpl in *;
  repeat match goal with
  | Hc : context [if ?n =? 0 then _ else _] |- _ =>
      let E := fresh "E" in destruct (n =? 0) eqn:E; reflect_tests
  end;
  repeat match goal with
  | Hi : Some _ = Some _ |- _ => injection Hi as Hi
  | Hd : _ ∨ _ |- _ => destruct Hd
  end;
  subst; try discriminate; try congruence; try lia;
  try match goal with
      | Hn : ndim _ = _, Hnot : _ ∉ _ |- _ => rewrite Hn in Hnot
      end;
  try (exfalso; apply Hne;
       first [apply list_elem_of_here
             | apply list_elem_of_further, list_elem_of_here]).

(** C4, amended.  Take a setter and a buffer that misses something the
    setter asks for: the element count (when one is asked), the number of
    dimensions, the C-contiguous layout or the extent of an axis.  Then the
    setter throws [invalid_argument] and the receiving object is exactly
    what it was before the call.  And whenever a setter fails, it fails
    with [invalid_argument] and leaves the object as it was: no setter
    writes before its checks are done. *)
Theorem setter_validation_is_atomic `{CloudApi} `{ImageApi} `{CuboidApi}
    (f : buffer_setter) (o : receiver f) :
  array_wf (buffer_meta f) →
  (fails_validation f o → ∃ msg, call f o = (inl (invalid_argument msg), o)) ∧
  (∀ e o', call f o = (inl e, o') → o' = o ∧ ∃ msg, e = invalid_argument msg).
Proof.
  intros Wf. pose proof (array_wf_size _ Wf) as Sz. pose proof (array_wf_ndim _ Wf) as Nd.
  unfold fails_validation.
  destruct f as [a|a|a|a|a|a|a|a|a]; simpl in *;
    change (size (mk_array (shape a) (flags a) [])) with (size a) in *;
    change (ndim (mk_array (shape a) (flags a) [])) with (ndim a) in *.
  - destruct (set_range_cases a o) as [(E & Hsz & Hnd & HC) | (msg & E & _)];
      rewrite E; rewrite ?Sz, ?Nd in *;
      (split; [intros Hfault | intros e o' Hcall; inversion Hcall; eauto]);
      [exfalso; no_fault Hfault | eauto].
  - destruct (set_key_cases a o) as [(E & Hsz & HC) | (msg & E & _)];
      rewrite E; rewrite ?Sz, ?Nd in *;
      (split; [intros Hfault | intros e o' Hcall; inversion Hcall; eauto]);
      [exfalso; no_fault Hfault | eauto].
  - destruct (set_mask_cases a o) as [(E & Hsz & HC & Hnd) | (msg & E & _)];
      rewrite E; rewrite ?Sz, ?Nd in *;
      (split; [intros Hfault | intros e o' Hcall; inversion Hcall; eauto]);
      [exfalso; no_fault Hfault | eauto].
  - destruct (set_xyz_cases a o) as [(E & Hsz) | (msg & E & _)];
      rewrite E; rewrite ?Sz, ?Nd in *;
      (split; [intros Hfault | intros e o' Hcall; inversion Hcall; eauto]);
      [exfalso; no_fault Hfault | eauto].
  - destruct (set_pose_cases a o) as [(E & Hsz & Hnd) | (msg & E)];
      rewrite E; rewrite ?Sz, ?Nd in *;
      (split; [intros Hfault | intros e o' Hcall; inversion Hcall; eauto]);
      [exfalso; no_fault Hfault | eauto].
  - destruct (set_palette_cases a o) as [(n & E & Hnd & HC & _ & H3) | (msg & E & _)];
      rewrite E; rewrite ?Sz, ?Nd in *;
      (split; [intros Hfault | intros e o' Hcall; inversion Hcall; eauto]);
      [exfalso; no_fault Hfault | eauto].
  - destruct (set_image_cases a o) as [(w & h & E & Hnd & HC) | (msg & E)];
      rewrite E; rewrite ?Sz, ?Nd in *;
      (split; [intros Hfault | intros e o' Hcall; inversion Hcall; eauto]);
      [exfalso; no_fault Hfault | eauto].
  - destruct (image_set_mask_cases a o) as [(w & h & E & Hnd & HC & H4) | (msg & E)];
      rewrite E; rewrite ?Sz, ?Nd in *;
      (split; [intros Hfault | intros e o' Hcall; inversion Hcall; eauto]);
      [exfalso; no_fault Hfault | eauto].
  - destruct (set_transform_cases a o) as [(E & Hsz & Hnd) | (msg & E)];
      rewrite E; rewrite ?Sz, ?Nd in *;
      (split; [intros Hfault | intros e o' Hcall; inversion Hcall; eauto]);
      [exfalso; no_fault Hfault | eauto].
Qed.

(** A wrong element count, a wrong dimensionality and a wrong layout, each
    on a cloud of two points. *)
Lemma setter_validation_is_atomic_witness :
  (array_wf (buffer_meta (Cloud_set_range range_1x5))
   ∧ fails_validation (Cloud_set_range range_1x5) cloud2
   ∧ ∃ msg, call (Cloud_set_range range_1x5) cloud2 = (inl (invalid_argument msg), cloud2)) ∧
  (fails_validation (Cloud_set_range range_2) cloud2
   ∧ ∃ msg, call (Cloud_set_range range_2) cloud2 = (inl (invalid_argument msg), cloud2)) ∧
  (fails_validation (Cloud_set_range range_2x1_strided) cloud2
   ∧ ∃ msg, call (Cloud_set_range range_2x1_strided) cloud2
            = (inl (invalid_argument msg), cloud2)).
Proof.
  assert (W1 : array_wf (buffer_meta (Cloud_set_range range_1x5))) by wf_by_computation.
  assert (W2 : array_wf (buffer_meta (Cloud_set_range range_2))) by wf_by_computation.
  assert (W3 : array_wf (buffer_meta (Cloud_set_range range_2x1_strided)))
    by wf_by_computation.
  assert (F1 : fails_validation (Cloud_set_range range_1x5) cloud2).
  { left. exists 2. split; [reflexivity | vm_compute; discriminate]. }
  assert (F2 : fails_validation (Cloud_set_range range_2) cloud2).
  { right; left. split; [discriminate|]. vm_compute. intros Hin.
    apply list_elem_of_singleton in Hin. discriminate Hin. }
  assert (F3 : fails_validation (Cloud_set_range range_2x1_strided) cloud2).
  { right; right; left. split; reflexivity. }
  split; [|split].
  - split; [exact W1|]. split; [exact F1|].
    exact (proj1 (setter_validation_is_atomic (Cloud_set_range range_1x5) cloud2 W1) F1).
  - split; [exact F2|].
    exact (proj1 (setter_validation_is_atomic (Cloud_set_range range_2) cloud2 W2) F2).
  - split; [exact F3|].
    exact (proj1 (setter_validation_is_atomic (Cloud_set_range range_2x1_strided)
                    cloud2 W3) F3).
Defined.

(** ** The palette *)

(** C7.  [set_palette] accepts a buffer only if it is two-dimensional with
    second dimension 3; a buffer of another dimensionality or with another
    second dimension is rejected with [invalid_argument], the cloud left as
    it was; and a C-contiguous [N x 3] buffer is accepted for every [N]. *)
Theorem set_palette_shape `{CloudApi} (c : cloud) (buf : array_t float) :
  array_wf buf →
  (is_ok (Cloud.set_palette buf c) = true → ∃ N, shape buf = [N; 3]) ∧
  (ndim buf ≠ 2 ∨ shape buf !! 1%nat ≠ Some 3 →
     ∃ msg, Cloud.set_palette buf c = (inl (invalid_argument msg), c)) ∧
  (∀ N, shape buf = [N; 3] → Z.land (flags buf) c_style ≠ 0 →
     Cloud.set_palette buf c = (inr tt, cloud_set_palette (data buf) N c)).
Proof.
  intros Wf. pose proof (array_wf_ndim _ Wf) as Nd.
  destruct (set_palette_cases buf c) as [(n & E & Hnd & HC & E0 & E1) | (msg & E & Hbad)];
    rewrite E; rewrite Nd in *; clear E.
  - assert (Hshape : shape buf = [n; 3]).
    { unfold ndim in Hnd. destruct (shape buf) as [|x [|y [|z l]]]; simpl in *; try lia.
      congruence. }
    repeat split.
    + eauto.
    + intros [Hne | Hne]; [lia | congruence].
    + intros N HN _. congruence.
  - repeat split.
    + intros Hok. exfalso. exact (is_ok_inl _ _ Hok).
    + eauto.
    + intros N HN HC. exfalso. destruct Hbad as [Hb | [Hb | Hb]].
      * apply Hb. unfold ndim. rewrite HN. reflexivity.
      * contradiction.
      * apply Hb. rewrite HN. reflexivity.
Qed.

Lemma set_palette_shape_witness :
  array_wf palette_6 ∧
  Cloud.set_palette palette_2x3 cloud2
    = (inr tt, cloud_set_palette (data palette_2x3) 2 cloud2) ∧
  (∃ msg, Cloud.set_palette palette_6 cloud2 = (inl (invalid_argument msg), cloud2)) ∧
  (∃ msg, Cloud.set_palette palette_3x2 cloud2 = (inl (invalid_argument msg), cloud2)).
Proof.
  assert (W6 : array_wf palette_6) by wf_by_computation.
  assert (W32 : array_wf palette_3x2) by wf_by_computation.
  assert (W23 : array_wf palette_2x3) by wf_by_computation.
  split; [exact W6|]. split; [|split].
  - apply (proj2 (proj2 (set_palette_shape cloud2 palette_2x3 W23)) 2);
      [reflexivity | vm_compute; discriminate].
  - apply (proj1 (proj2 (set_palette_shape cloud2 palette_6 W6))).
    left. vm_compute. discriminate.
  - apply (proj1 (proj2 (set_palette_shape cloud2 palette_3x2 W32))).
    right. vm_compute. discriminate.
Defined.

(** ** Range buffers *)

(** C10, as stated, fails: a cloud without points accepts a range buffer of
    five elements. *)
Lemma set_range_empty_cloud_counterexample :
  cloud_get_size cloud0 = 0 ∧ size range_1x5 = 5 ∧
  Cloud.set_range range_1x5 cloud0 = (inr tt, cloud_set_range (data range_1x5) cloud0).
Proof. repeat split. Qed.

(** C10, amended.  [set_range] accepts only 2-dimensional C-contiguous
    arrays, which for a cloud with a non-zero point count [n] have exactly
    [n] elements (for [n = 0] the element count is not checked); a
    1-dimensional array is rejected with [invalid_argument], whatever its
    element count and however the cloud was made. *)
Theorem set_range_accepts `{CloudApi} (c : cloud) (range : array_t Z) :
  array_wf range →
  (is_ok (Cloud.set_range range c) = true →
     ndim range = 2 ∧ Z.land (flags range) c_style ≠ 0
     ∧ (cloud_get_size c ≠ 0 → size range = cloud_get_size c)) ∧
  (ndim range = 1 →
     ∃ msg, Cloud.set_range range c = (inl (invalid_argument msg), c)).
Proof.
  intros Wf. pose proof (array_wf_ndim _ Wf) as Nd. pose proof (array_wf_size _ Wf) as Sz.
  destruct (set_range_cases range c) as [(E & Hsz & Hnd & HC) | (msg & E & Hbad)];
    rewrite E; rewrite Nd, Sz in *; clear E.
  - repeat split.
    + assumption.
    + assumption.
    + intros Hn. destruct Hsz; [contradiction | assumption].
    + lia.
  - split.
    + intros Hok. exfalso. exact (is_ok_inl _ _ Hok).
    + eauto.
Qed.

Lemma set_range_accepts_witness :
  array_wf range_2 ∧
  (is_ok (Cloud.set_range range_1x2 cloud2) = true ∧ ndim range_1x2 = 2
   ∧ size range_1x2 = cloud_get_size cloud2) ∧
  (ndim range_2 = 1 ∧ size range_2 = cloud_get_size cloud2
   ∧ ∃ msg, Cloud.set_range range_2 cloud2 = (inl (invalid_argument msg), cloud2)).
Proof.
  assert (W2 : array_wf range_2) by wf_by_computation.
  assert (W12 : array_wf range_1x2) by wf_by_computation.
  split; [exact W2|]. split.
  - split; [reflexivity|].
    destruct (proj1 (set_range_accepts cloud2 range_1x2 W12) eq_refl) as (Hnd & _ & Hsz).
    split; [exact Hnd | apply Hsz; vm_compute; discriminate].
  - split; [reflexivity|]. split; [reflexivity|].
    apply (proj2 (set_range_accepts cloud2 range_2 W2)). reflexivity.
Defined.

(** ** Color tuples *)

Section Tuples.
Context `{PyCaster}.

(** The body of the loop in [tuple_to_float_array]. *)
Local Abbreviation fill tuple :=
  (λ i, v <- tuple_item_cast tuple i ;; modify (λ dst : list float, <[i:=v]> dst)).

(** When every element converts, the loop overwrites the front of the
    destination and keeps the rest. *)
Lemma fill_loop_ok (rest : list pyobject) :
  ∀ (vs : list float) (pre : list pyobject) (done tail : list float),
  mapM cast_float rest = Some vs →
  length done = length pre → (length vs ≤ length tail)%nat →
  for_loop (length rest) (length pre) (fill (pre ++ rest)) (done ++ tail)
  = (inr tt, done ++ vs ++ drop (length vs) tail).
Proof.
  induction rest as [|x rest IH]; intros vs pre done tail Hcast Hlen Hfit.
  - injection Hcast as <-. reflexivity.
  - apply mapM_Some in Hcast. inversion Hcast as [|? v ? vs' Hx Hrest]; subst.
    destruct tail as [|t tail]; [simpl in Hfit; lia|].
    cbn [length for_loop]. unfold bind at 1. unfold bind at 1.
    unfold tuple_item_cast at 1. rewrite list_lookup_middle by reflexivity.
    rewrite Hx. unfold ret at 1, modify at 1.
    rewrite <- Hlen. rewrite (insert_app_r_alt done (t :: tail) (length done)) by lia.
    rewrite Nat.sub_diag. cbn [insert list_insert].
    specialize (IH vs' (pre ++ [x]) (done ++ [v]) tail).
    rewrite <- !(assoc_L (++)) in IH. cbn [app] in IH.
    rewrite !length_app in IH. cbn [length] in IH.
    replace (length pre + 1)%nat with (Datatypes.S (length done)) in IH by lia.
    rewrite IH; [reflexivity | apply mapM_Some; assumption | lia | simpl in Hfit; lia].
Qed.

(** When some element does not convert, the loop ends in [cast_error]. *)
Lemma fill_loop_fail (rest : list pyobject) :
  ∀ (pre : list pyobject) (dst : list float),
  Exists (λ x, cast_float x = None) rest →
  ∃ dst', for_loop (length rest) (length pre) (fill (pre ++ rest)) dst
          = (inl cast_error, dst').
Proof.
  induction rest as [|x rest IH]; intros pre dst Hex.
  - inversion Hex.
  - cbn [length for_loop]. unfold bind at 1. unfold bind at 1.
    unfold tuple_item_cast at 1. rewrite list_lookup_middle by reflexivity.
    destruct (cast_float x) as [v|] eqn:Hx.
    + unfold ret at 1, modify at 1.
      assert (Hrest : Exists (λ x, cast_float x = None) rest).
      { inversion Hex; subst; [congruence | assumption]. }
      destruct (IH (pre ++ [x]) (<[length pre:=v]> dst) Hrest) as [dst' E].
      rewrite <- (assoc_L (++)) in E. cbn [app] in E.
      rewrite length_app in E. cbn [length] in E.
      replace (length pre + 1)%nat with (Datatypes.S (length pre)) in E by lia.
      exists dst'. exact E.
    + exists dst. reflexivity.
Qed.

Lemma tuple_too_long (N : nat) (tuple : list pyobject) (dst : list float) :
  (N < length tuple)%nat →
  tuple_to_float_array N tuple dst
  = (inl (invalid_argument ("Expected a tuple of size <= " +:+ to_string (Z.of_nat N))), dst).
Proof.
  intros Hlong. unfold tuple_to_float_array, bind, throw.
  destruct (N <? length tuple)%nat eqn:Hlt; [reflexivity|].
  apply Nat.ltb_ge in Hlt. lia.
Qed.

Lemma tuple_converts (N : nat) (tuple : list pyobject) (vs dst : list float) :
  (length tuple ≤ N)%nat → length dst = N → mapM cast_float tuple = Some vs →
  tuple_to_float_array N tuple dst = (inr tt, vs ++ drop (length vs) dst).
Proof.
  intros Hshort Hdst Hcast. unfold tuple_to_float_array.
  unfold bind at 1. unfold catch_cast_error, ret, throw.
  destruct (N <? length tuple)%nat eqn:Hlt; [apply Nat.ltb_lt in Hlt; lia|].
  pose proof (fill_loop_ok tuple vs [] [] dst Hcast eq_refl) as E.
  cbn [app length] in E. rewrite E; [reflexivity|].
  apply length_mapM in Hcast. lia.
Qed.

Lemma tuple_not_floats (N : nat) (tuple : list pyobject) (dst : list float) :
  (length tuple ≤ N)%nat → Exists (λ x, cast_float x = None) tuple →
  ∃ dst', tuple_to_float_array N tuple dst
          = (inl (type_error "Expected a tuple of floats"), dst').
Proof.
  intros Hshort Hex. unfold tuple_to_float_array.
  unfold bind at 1. unfold catch_cast_error, ret, throw.
  destruct (N <? length tuple)%nat eqn:Hlt; [apply Nat.ltb_lt in Hlt; lia|].
  destruct (fill_loop_fail tuple [] dst Hex) as [dst' E].
  cbn [app length] in E. rewrite E. eauto.
Qed.
End Tuples.

(** The block shared by the color setters: the tuple is converted into the
    local [ar], and only then is the object touched. *)
Section RgbaBlock.
Context `{PyCaster} {S : Type} (f : vec4f → S → S).

Local Abbreviation rgba_block rgba :=
  (with_local default_rgba
     (on_local (tuple_to_float_array 4 rgba) ;;
      ar <- on_local (gets id) ;;
      on_object (modify (f ar)))).

Lemma rgba_block_too_long (rgba : list pyobject) (s : S) :
  (4 < length rgba)%nat →
  rgba_block rgba s = (inl (invalid_argument "Expected a tuple of size <= 4"), s).
Proof.
  intros Hlong. unfold with_local, bind, on_local.
  rewrite (tuple_too_long 4 rgba default_rgba Hlong). reflexivity.
Qed.

Lemma rgba_block_converts (rgba : list pyobject) (vs : list float) (s : S) :
  (length rgba ≤ 4)%nat → mapM cast_float rgba = Some vs →
  rgba_block rgba s = (inr tt, f (vs ++ drop (length vs) default_rgba) s).
Proof.
  intros Hshort Hcast. unfold with_local, bind, on_local, on_object, gets, modify.
  rewrite (tuple_converts 4 rgba vs default_rgba Hshort eq_refl Hcast). reflexivity.
Qed.

Lemma rgba_block_not_floats (rgba : list pyobject) (s : S) :
  (length rgba ≤ 4)%nat → Exists (λ x, cast_float x = None) rgba →
  rgba_block rgba s = (inl (type_error "Expected a tuple of floats"), s).
Proof.
  intros Hshort Hex. unfold with_local, bind, on_local.
  destruct (tuple_not_floats 4 rgba default_rgba Hshort Hex) as [dst' E].
  rewrite E. reflexivity.
Qed.
End RgbaBlock.

Section CuboidInit.
Context `{CuboidApi} `{PyCaster}.

Lemma init_bad_pose (pose : array_t double) (rgba : list pyobject) :
  is_ok (check_array pose 16 2 "F" tt) = false →
  ∃ msg, Cuboid.init pose rgba tt = (inl (invalid_argument msg), tt).
Proof.
  intros Hbad. unfold Cuboid.init. unfold bind at 1.
  destruct (check_array_cases pose 16 2 "F"%char tt) as [(E & _) | (msg & E & _)];
    rewrite E in *; [discriminate | eauto].
Qed.

Lemma init_too_long (pose : array_t double) (rgba : list pyobject) :
  (4 < length rgba)%nat →
  ∃ msg, Cuboid.init pose rgba tt = (inl (invalid_argument msg), tt).
Proof.
  intros Hlong. unfold Cuboid.init. unfold bind at 1.
  destruct (check_array_cases pose 16 2 "F"%char tt) as [(E & _) | (msg & E & _)];
    rewrite E; [|eauto].
  unfold with_local, bind, on_local.
  rewrite (tuple_too_long 4 rgba default_rgba Hlong). eauto.
Qed.

Lemma init_converts (pose : array_t double) (rgba : list pyobject) (vs : list float) :
  is_ok (check_array pose 16 2 "F" tt) = true →
  (length rgba ≤ 4)%nat → mapM cast_float rgba = Some vs →
  Cuboid.init pose rgba tt
  = (inr (cuboid_new (copy16 (data pose)) (vs ++ drop (length vs) default_rgba)), tt).
Proof.
  intros Hpose Hshort Hcast. unfold Cuboid.init. unfold bind at 1.
  destruct (check_array_cases pose 16 2 "F"%char tt) as [(E & _) | (msg & E & _)];
    rewrite E in *; [|discriminate].
  unfold with_local, bind, on_local, gets, ret.
  rewrite (tuple_converts 4 rgba vs default_rgba Hshort eq_refl Hcast). reflexivity.
Qed.

Lemma init_not_floats (pose : array_t double) (rgba : list pyobject) :
  is_ok (check_array pose 16 2 "F" tt) = true →
  (length rgba ≤ 4)%nat → Exists (λ x, cast_float x = None) rgba →
  Cuboid.init pose rgba tt = (inl (type_error "Expected a tuple of floats"), tt).
Proof.
  intros Hpose Hshort Hex. unfold Cuboid.init. unfold bind at 1.
  destruct (check_array_cases pose 16 2 "F"%char tt) as [(E & _) | (msg & E & _)];
    rewrite E in *; [|discriminate].
  unfold with_local, bind, on_local.
  destruct (tuple_not_floats 4 rgba default_rgba Hshort Hex) as [dst' E'].
  rewrite E'. reflexivity.
Qed.
End CuboidInit.

(** C6, as stated, fails: a tuple of fewer than 4 elements does not succeed
    when an element is not a number. *)
Lemma short_tuple_counterexample :
  (length tuple_name < 4)%nat ∧
  Cuboid.set_rgba tuple_name red_cuboid
  = (inl (type_error "Expected a tuple of floats"), red_cuboid).
Proof. split; [simpl; lia | reflexivity]. Qed.

(** C6, amended.  On a cuboid, [set_rgba] with a tuple of more than 4
    elements fails with [invalid_argument] and leaves the cuboid as it was;
    with a tuple of fewer than 4 elements that all convert to float it
    succeeds, and the color handed to the cuboid is the converted elements
    followed by the remaining components of the default (0, 0, 0, 1), so a
    3-tuple gets alpha 1.  Construction does the same, given a pose that
    passes its check. *)
Theorem rgba_tuple_length `{CuboidApi} `{PyCaster}
    (q : cuboid) (pose : array_t double) (rgba : list pyobject) (vs : list float) :
  ((4 < length rgba)%nat →
     Cuboid.set_rgba rgba q
       = (inl (invalid_argument "Expected a tuple of size <= 4"), q)
     ∧ ∃ msg, Cuboid.init pose rgba tt = (inl (invalid_argument msg), tt)) ∧
  ((length rgba < 4)%nat → mapM cast_float rgba = Some vs →
     Cuboid.set_rgba rgba q
       = (inr tt, cuboid_set_rgba (vs ++ drop (length vs) default_rgba) q)
     ∧ (is_ok (check_array pose 16 2 "F" tt) = true →
        Cuboid.init pose rgba tt
          = (inr (cuboid_new (copy16 (data pose))
                    (vs ++ drop (length vs) default_rgba)), tt))
     ∧ (length rgba = 3%nat →
        ∃ r g b, vs ++ drop (length vs) default_rgba = [r; g; b; f1])).
Proof.
  split.
  - intros Hlong. split.
    + apply (rgba_block_too_long cuboid_set_rgba rgba q Hlong).
    + apply init_too_long, Hlong.
  - intros Hshort Hcast. split; [|split].
    + apply (rgba_block_converts cuboid_set_rgba rgba vs q); [lia | assumption].
    + intros Hpose. apply init_converts; [assumption | lia | assumption].
    + intros H3. apply length_mapM in Hcast. rewrite H3 in Hcast.
      destruct vs as [|r [|g [|b [|]]]]; simpl in Hcast; try lia.
      exists r, g, b. reflexivity.
Qed.

Lemma rgba_tuple_length_witness :
  (Cuboid.set_rgba tuple_of_5 red_cuboid
     = (inl (invalid_argument "Expected a tuple of size <= 4"), red_cuboid)
   ∧ ∃ msg, Cuboid.init identity_pose tuple_of_5 tt = (inl (invalid_argument msg), tt)) ∧
  (Cuboid.set_rgba tuple_rgb red_cuboid
     = (inr tt, mk_cuboid (q_pose red_cuboid) [f1; f_half; f0; f1])
   ∧ Cuboid.init identity_pose tuple_rgb tt
     = (inr (mk_cuboid (data identity_pose) [f1; f_half; f0; f1]), tt)).
Proof.
  split.
  - apply (proj1 (rgba_tuple_length red_cuboid identity_pose tuple_of_5 [])).
    simpl. lia.
  - destruct (proj2 (rgba_tuple_length red_cuboid identity_pose tuple_rgb [f1; f_half; f0])
                ltac:(simpl; lia) eq_refl) as (Hset & Hinit & _).
    split; [exact Hset | exact (Hinit eq_refl)].
Defined.

(** C8, as stated, fails: with five elements none of which is a number,
    what is raised is [invalid_argument], not a type error. *)
Lemma long_tuple_counterexample :
  Exists (λ x, cast_float x = None) tuple_of_5_names ∧
  Label.set_rgba tuple_of_5_names red_label
  = (inl (invalid_argument "Expected a tuple of size <= 4"), red_label) ∧
  Cuboid.set_rgba tuple_of_5_names red_cuboid
  = (inl (invalid_argument "Expected a tuple of size <= 4"), red_cuboid).
Proof. split; [left; reflexivity | split; reflexivity]. Qed.

(** C8, amended.  For a tuple of at most 4 elements one of which does not
    convert to float, [Cuboid.set_rgba] and [Label.set_rgba] throw
    [type_error] and leave the object as it was, and so does the Cuboid
    constructor given a pose that passes its check. *)
Theorem rgba_type_error `{CuboidApi} `{LabelApi} `{PyCaster}
    (q : cuboid) (l : label) (pose : array_t double) (rgba : list pyobject) :
  (length rgba ≤ 4)%nat → Exists (λ x, cast_float x = None) rgba →
  Cuboid.set_rgba rgba q = (inl (type_error "Expected a tuple of floats"), q) ∧
  Label.set_rgba rgba l = (inl (type_error "Expected a tuple of floats"), l) ∧
  (is_ok (check_array pose 16 2 "F" tt) = true →
   Cuboid.init pose rgba tt = (inl (type_error "Expected a tuple of floats"), tt)).
Proof.
  intros Hshort Hex. split; [|split].
  - apply (rgba_block_not_floats cuboid_set_rgba rgba q Hshort Hex).
  - apply (rgba_block_not_floats label_set_rgba rgba l Hshort Hex).
  - intros Hpose. apply init_not_floats; assumption.
Qed.

Lemma rgba_type_error_witness :
  (length tuple_rgb_name ≤ 4)%nat ∧
  Exists (λ x, cast_float x = None) tuple_rgb_name ∧
  Cuboid.set_rgba tuple_rgb_name red_cuboid
  = (inl (type_error "Expected a tuple of floats"), red_cuboid) ∧
  Label.set_rgba tuple_rgb_name red_label
  = (inl (type_error "Expected a tuple of floats"), red_label) ∧
  Cuboid.init identity_pose tuple_rgb_name tt
  = (inl (type_error "Expected a tuple of floats"), tt).
Proof.
  assert (Hshort : (length tuple_rgb_name ≤ 4)%nat) by (simpl; lia).
  assert (Hex : Exists (λ x, cast_float x = None) tuple_rgb_name)
    by (right; left; reflexivity).
  destruct (rgba_type_error red_cuboid red_label identity_pose tuple_rgb_name Hshort Hex)
    as (Hq & Hl & Hinit).
  split; [exact Hshort|]. split; [exact Hex|]. split; [exact Hq|].
  split; [exact Hl | exact (Hinit eq_refl)].
Defined.

(** ** The structured constructor *)

(** What the constructor hands over, for every lookup table: direction and
    offset are both the table's direction component. *)
Lemma init_args_spec `{LidarScanApi} (info : sensor_info) :
  Cloud.init_args info
  = {| Cloud.arg_w := columns_per_frame (format info);
       Cloud.arg_h := pixels_per_column (format info);
       Cloud.arg_direction := cast_to_float (direction (make_xyz_lut info));
       Cloud.arg_offset := cast_to_float (direction (make_xyz_lut info));
       Cloud.arg_extrinsic := copy16 (extrinsic info) |}.
Proof. reflexivity. Qed.

(** C2 does not hold of the code.  For a sensor whose lookup table has
    direction (1, 0, 0) and offset (0.5, 0, 0), the offset vectors handed to
    the cloud are (1, 0, 0), the table's direction component, and not
    (0.5, 0, 0), its offset component; directions and extrinsic transform
    are as C2 says. *)
Theorem structured_offset_from_direction :
  let api := lut_api lut_1x1 in
  let args := Cloud.init_args sensor_1x1 in
  let lut := make_xyz_lut sensor_1x1 in
  Cloud.arg_direction args = cast_to_float (direction lut) ∧
  Cloud.arg_extrinsic args = extrinsic sensor_1x1 ∧
  Cloud.arg_offset args = [f1; f0; f0] ∧
  cast_to_float (offset lut) = [f_half; f0; f0] ∧
  Cloud.arg_offset args ≠ cast_to_float (offset lut) ∧
  c_offset (Cloud.init_structured sensor_1x1) = [f1; f0; f0].
Proof. repeat split. discriminate. Qed.

(** ** The rendering loop *)

Section RunLoop.
Import PointViz.
Context `{PointVizApi}.

(** The rest of the process moves neither the loop nor the frame count nor
    the visibility flag; it changes the running flag only while the GIL is
    released. *)
Lemma env_step_frame (w : world) (a : env_act) :
  pc (env_step w a) = pc w ∧ visible (env_step w a) = visible w
  ∧ gil (env_step w a) = gil w ∧ frames (env_step w a) = frames w
  ∧ (gil w = true → running (env_step w a) = running w)
  ∧ (no_restart a → running w = false → running (env_step w a) = false)
  ∧ (signal_pending w = true → signal_pending (env_step w a) = true).
Proof.
  destruct a as [[|]|f|]; unfold env_step; destruct (gil w) eqn:Hg; simpl;
    repeat split; auto; try discriminate; try contradiction.
Qed.

Lemma env_steps_frame (acts : list env_act) :
  ∀ w : world,
  pc (foldl env_step w acts) = pc w ∧ visible (foldl env_step w acts) = visible w
  ∧ gil (foldl env_step w acts) = gil w ∧ frames (foldl env_step w acts) = frames w
  ∧ (gil w = true → running (foldl env_step w acts) = running w)
  ∧ (Forall no_restart acts → running w = false →
     running (foldl env_step w acts) = false)
  ∧ (signal_pending w = true → signal_pending (foldl env_step w acts) = true).
Proof.
  induction acts as [|a acts IH]; intros w; simpl.
  - repeat split; auto.
  - destruct (env_step_frame w a) as (Hp & Hv & Hg & Hf & Hr & Hs & Hsig).
    destruct (IH (env_step w a)) as (Hp' & Hv' & Hg' & Hf' & Hr' & Hs' & Hsig').
    rewrite Hp', Hv', Hg', Hf', Hp, Hv, Hg, Hf. repeat split; auto.
    + intros G. rewrite Hr' by congruence. auto.
    + intros Hq Hrun. inversion Hq; subst. auto.
Qed.

Lemma run_inv_env (w : world) (acts : list env_act) :
  run_inv w → run_inv (foldl env_step w acts).
Proof.
  destruct (env_steps_frame acts w) as (Hp & Hv & Hg & Hf & Hr & _).
  unfold run_inv. rewrite Hp, Hv, Hg, Hf.
  destruct (pc w); intros Hinv; try exact Hinv.
  - destruct Hinv as (G & R & F). rewrite Hr by assumption. auto.
  - destruct Hinv as (G & R & V & F). rewrite Hr by assumption. auto.
Qed.

Lemma run_inv_step (w : world) : run_inv w → run_inv (run_step w).
Proof.
  destruct w as [p rn vis g sp fr sc]. unfold run_inv, run_step, at_boundary. simpl.
  destruct p as [| | | |i| | |e]; simpl.
  - intros (G & F). auto.
  - intros (G & R & F). repeat split; auto. exists 0%nat. simpl. assumption.
  - intros (G & V & F). destruct rn; simpl; auto.
  - intros (G & R & V & F). destruct sp; simpl; repeat split; auto.
    + unfold check_every. lia.
    + destruct F as [k F]. exists k. lia.
  - intros (G & V & I & k & F). destruct (i <? check_every)%nat eqn:Hi.
    + apply Nat.ltb_lt in Hi. destruct (run_once sc) as [sc' closed]. simpl.
      repeat split; auto; first [lia | exists k; lia].
    + apply Nat.ltb_ge in Hi. simpl. repeat split; auto.
      exists (Datatypes.S k). unfold check_every in *. lia.
  - intros (V & F). auto.
  - auto.
  - auto.
Qed.

(** The invariant holds all along every run. *)
Lemma run_inv_exec (sched : schedule) :
  ∀ w : world, run_inv w → run_inv (exec sched w).
Proof.
  induction sched as [|acts sched IH]; intros w Hinv; simpl; [assumption|].
  apply IH, run_inv_step, run_inv_env, Hinv.
Qed.

Lemma run_inv_enter (r v sg : bool) (sc : scene) : run_inv (enter r v sg sc).
Proof. split; reflexivity. Qed.

Lemma run_inv_run (r v sg : bool) (sc : scene) (sched : schedule) :
  run_inv (run sched r v sg sc).
Proof. apply run_inv_exec, run_inv_enter. Qed.

(** Once the flag is cleared and stays so, each step brings the loop
    nearer to its return, and frame-steps are only those left in the
    batch. *)
Lemma stopping_step (w : world) (acts : list env_act) :
  stopping w → Forall no_restart acts →
  let w' := run_step (foldl env_step w acts) in
  stopping w'
  ∧ (frames w' + frames_left (pc w') ≤ frames w + frames_left (pc w))%nat
  ∧ (steps_left (pc w') ≤ pred (steps_left (pc w)))%nat.
Proof.
  intros (Hrun & Hpc) Hq.
  destruct (env_steps_frame acts w) as (Hp & _ & _ & Hf & _ & Hr & _).
  specialize (Hr Hq Hrun). revert Hp Hf Hr.
  generalize (foldl env_step w acts). intros u Hp Hf Hr.
  destruct u as [p rn vis g sp fr sc]. simpl in *. subst p fr rn.
  unfold stopping, run_step. simpl.
  destruct (pc w) as [| | | |i| | |e]; simpl in *; try contradiction.
  - repeat split; auto.
  - destruct (i <? check_every)%nat eqn:Hi.
    + apply Nat.ltb_lt in Hi. destruct (run_once sc) as [sc' closed]. simpl.
      destruct closed; repeat split; auto; unfold check_every in *; lia.
    + apply Nat.ltb_ge in Hi. simpl. repeat split; auto; unfold check_every in *; lia.
  - repeat split; auto.
  - repeat split; auto.
Qed.

Lemma stopping_exec (post : schedule) :
  ∀ w : world, stopping w → quiet post →
  stopping (exec post w)
  ∧ (frames (exec post w) + frames_left (pc (exec post w))
     ≤ frames w + frames_left (pc w))%nat
  ∧ (steps_left (pc (exec post w)) ≤ steps_left (pc w) - length post)%nat.
Proof.
  induction post as [|acts post IH]; intros w Hstop Hq; simpl.
  - repeat split; [apply Hstop | apply Hstop | lia | lia].
  - inversion Hq as [|? ? Hacts Hpost]; subst.
    destruct (stopping_step w acts Hstop Hacts) as (Hstop' & Hfr & Hst).
    destruct (IH _ Hstop' Hpost) as (Hstop'' & Hfr' & Hst').
    repeat split; [apply Hstop'' | apply Hstop'' | lia | lia].
Qed.

Lemma stopping_done (w : world) : stopping w → steps_left (pc w) = 0%nat → pc w = Returned.
Proof.
  intros (_ & Hpc). destruct (pc w) as [| | | |i| | |e]; simpl in *;
    try contradiction; try discriminate; [lia | reflexivity].
Qed.

(** A finished run stays as it is, whatever the rest of the process does. *)
Lemma finished_exec (post : schedule) :
  ∀ w : world, finished (pc w) →
  pc (exec post w) = pc w ∧ frames (exec post w) = frames w
  ∧ visible (exec post w) = visible w.
Proof.
  induction post as [|acts post IH]; intros w Hfin; simpl; [auto|].
  destruct (env_steps_frame acts w) as (Hp & Hv & _ & Hf & _).
  assert (Hstep : run_step (foldl env_step w acts) = foldl env_step w acts).
  { unfold run_step. rewrite Hp. destruct (pc w); simpl in Hfin; try contradiction; reflexivity. }
  rewrite Hstep. destruct (IH (foldl env_step w acts)) as (Hp' & Hf' & Hv').
  { rewrite Hp. assumption. }
  rewrite Hp', Hf', Hv'. auto.
Qed.

End RunLoop.

Section RunClaims.
Import PointViz.
Context `{PointVizApi}.

(** C1.  Take any point of an execution of [run()] inside its loop, after
    whatever other threads have just done, at which the running flag is
    false, and let no thread set the flag again.  From there [run()] makes
    at most [check_every] = 10 further calls of [run_once], whatever else
    the process does, and after at most 13 further steps of the loop (the
    rest of the batch, the test of the flag and the hiding of the window)
    it has returned. *)
Theorem stop_request_latency (r v sg : bool) (sc : scene) (pre post : schedule)
    (acts : list env_act) :
  let w := foldl env_step (run pre r v sg sc) acts in
  in_loop (pc w) → running w = false → quiet post →
  (frames (exec post w) ≤ frames w + check_every)%nat ∧
  ((13 ≤ length post)%nat → pc (exec post w) = Returned).
Proof.
  intros w Hloop Hrun Hq.
  assert (Hinv : run_inv w) by apply run_inv_env, run_inv_run.
  clearbody w.
  assert (Hstop : stopping w ∧ (frames_left (pc w) ≤ check_every)%nat
                  ∧ (steps_left (pc w) ≤ 13)%nat).
  { unfold stopping, run_inv in *.
    destruct (pc w) as [| | | |i| | |e]; simpl in *; try contradiction;
      unfold check_every; repeat split; auto; try lia.
    destruct Hinv as (_ & R & _). congruence. }
  destruct Hstop as (Hstop & Hfl & Hsl).
  destruct (stopping_exec post w Hstop Hq) as (Hstop' & Hfr & Hst).
  split; [lia|].
  intros Hlen. apply stopping_done; [assumption | lia].
Qed.

(** C9.  When [run()] has thrown, the visibility flag is still true; when
    it has returned, the flag is false. *)
Theorem visible_after_run (r v sg : bool) (sc : scene) (sched : schedule) :
  let w := run sched r v sg sc in
  (∀ e, pc w = Thrown e → visible w = true) ∧ (pc w = Returned → visible w = false).
Proof.
  intros w. assert (Hinv : run_inv w) by apply run_inv_run.
  unfold run_inv in Hinv. split.
  - intros e Hpc. rewrite Hpc in Hinv. apply Hinv.
  - intros Hpc. rewrite Hpc in Hinv. apply Hinv.
Qed.

End RunClaims.

(** A visualizer whose window stays open; a stop request at the head of
    the first batch, before its first frame-step: the whole batch of 10
    frame-steps is still rendered, and the 13th step returns. *)
Lemma stop_request_latency_witness :
  let api := point_viz_api 1000 in
  let pre := replicate 4 [] in
  let acts := [PointViz.call_running false] in
  let w := foldl PointViz.env_step (PointViz.run pre false false false 0%nat) acts in
  (PointViz.pc w = PointViz.Batch 0 ∧ PointViz.running w = false
   ∧ PointViz.frames w = 0%nat) ∧
  (PointViz.frames (PointViz.exec (replicate 13 []) w) = 10%nat
   ∧ PointViz.pc (PointViz.exec (replicate 12 []) w) = PointViz.Finish) ∧
  (PointViz.frames (PointViz.exec (replicate 13 []) w)
   ≤ PointViz.frames w + PointViz.check_every)%nat ∧
  PointViz.pc (PointViz.exec (replicate 13 []) w) = PointViz.Returned.
Proof.
  intros api pre acts w.
  assert (Hloop : PointViz.in_loop (PointViz.pc w)) by (vm_compute; exact I).
  assert (Hrun : PointViz.running w = false) by (vm_compute; reflexivity).
  assert (Hq : PointViz.quiet (replicate 13 [])) by repeat constructor.
  split; [repeat split; vm_compute; reflexivity|].
  split; [split; vm_compute; reflexivity|].
  destruct (@stop_request_latency api false false false 0%nat pre (replicate 13 []) acts
              Hloop Hrun Hq) as (Hfr & Hret).
  split; [exact Hfr | apply Hret; simpl; lia].
Defined.

Lemma visible_after_run_witness :
  let api := point_viz_api 1000 in
  let interrupted := [[]; []; []; []; []; [PointViz.deliver_signal]] ++ replicate 11 [] in
  let stopped := [[]; []; []; []; []; [PointViz.call_running false]] ++ replicate 13 [] in
  let w1 := PointViz.run interrupted false false false 0%nat in
  let w2 := PointViz.run stopped false false false 0%nat in
  (PointViz.pc w1 = PointViz.Thrown error_already_set ∧ PointViz.visible w1 = true) ∧
  (PointViz.pc w2 = PointViz.Returned ∧ PointViz.visible w2 = false).
Proof.
  intros api interrupted stopped w1 w2. split; (split; [reflexivity|]).
  - apply (proj1 (@visible_after_run api false false false 0%nat interrupted) error_already_set).
    reflexivity.
  - apply (proj2 (@visible_after_run api false false false 0%nat stopped)). reflexivity.
Defined.


(** * Further properties *)

(** ** [check_array]: which failure is reported *)

(** X1.  [check_array] reports the first check that fails, in the order
    size, dimension, F layout, C layout, with the message of that check,
    and accepts the array when none fails; it never touches the object. *)
Theorem check_array_first_failure {S T} (a : array_t T) (sz dims : Z) (st : ascii) (s : S) :
  let size_ok := sz = 0 ∨ to_size_t (size a) = sz in
  let dims_ok := dims = 0 ∨ to_size_t (ndim a) = dims in
  let f_ok := st = "F"%char → Z.land (flags a) f_style ≠ 0 in
  let c_ok := st = "C"%char → Z.land (flags a) c_style ≠ 0 in
  (¬ size_ok →
     check_array a sz dims st s
     = (inl (invalid_argument ("Expected array of size: " +:+ to_string sz)), s)) ∧
  (size_ok → ¬ dims_ok →
     check_array a sz dims st s
     = (inl (invalid_argument ("Expected an array of dimension: " +:+ to_string dims)), s)) ∧
  (size_ok → dims_ok → ¬ f_ok →
     check_array a sz dims st s
     = (inl (invalid_argument "Expected a F_CONTIGUOUS array"), s)) ∧
  (size_ok → dims_ok → f_ok → ¬ c_ok →
     check_array a sz dims st s
     = (inl (invalid_argument "Expected a C_CONTIGUOUS array"), s)) ∧
  (size_ok → dims_ok → f_ok → c_ok → check_array a sz dims st s = (inr tt, s)).
Proof.
  intros size_ok dims_ok f_ok c_ok. subst size_ok dims_ok f_ok c_ok.
  unfold check_array, bind, throw, ret.
  destruct (sz =? 0) eqn:Hsz; destruct (to_size_t (size a) =? sz) eqn:Hsize;
    destruct (dims =? 0) eqn:Hd; destruct (to_size_t (ndim a) =? dims) eqn:Hnd;
    destruct (bool_decide (st = "F"%char)) eqn:HF;
    destruct (Z.land (flags a) f_style =? 0) eqn:Hf;
    destruct (bool_decide (st = "C"%char)) eqn:HC;
    destruct (Z.land (flags a) c_style =? 0) eqn:Hc; simpl;
    reflect_tests;
    repeat split; intros; try reflexivity; exfalso;
    repeat match goal with
    | Hn : ¬ (_ ∨ _) |- _ => apply Decidable.not_or in Hn; destruct Hn
    | Ho : _ ∨ _ |- _ => destruct Ho
    end; try congruence;
    repeat match goal with
    | Hn : ¬ (_ → _) |- _ => apply Hn; intros
    | Hi : ?x = ?y → _, He : ?x = ?y |- _ => specialize (Hi He)
    end; congruence.
Qed.

Lemma check_array_first_failure_witness :
  check_array (S:=unit) Ref.range_2x1_strided 5 3 "C" tt
  = (inl (invalid_argument "Expected array of size: 5"), tt) ∧
  check_array (S:=unit) Ref.range_2x1_strided 2 3 "C" tt
  = (inl (invalid_argument "Expected an array of dimension: 3"), tt) ∧
  check_array (S:=unit) Ref.range_2x1_strided 2 2 "C" tt
  = (inl (invalid_argument "Expected a C_CONTIGUOUS array"), tt).
Proof.
  split; [|split].
  - apply (proj1 (check_array_first_failure Ref.range_2x1_strided 5 3 "C" tt)).
    vm_compute. intros [E|E]; discriminate E.
  - apply (proj1 (proj2 (check_array_first_failure Ref.range_2x1_strided 2 3 "C" tt))).
    + right. reflexivity.
    + vm_compute. intros [E|E]; discriminate E.
  - apply (proj1 (proj2 (proj2 (proj2
             (check_array_first_failure Ref.range_2x1_strided 2 2 "C" tt))))).
    + right. reflexivity.
    + right. reflexivity.
    + intros E. discriminate E.
    + intros Hc. apply Hc; reflexivity.
Defined.

(** ** What each setter accepts *)

Lemma is_ok_true_inv {S A} (r : (exn + A) * S) :
  is_ok r = true → ∃ a s, r = (inr a, s).
Proof. destruct r as [[e|a] s]; simpl; [discriminate | eauto]. Qed.

Lemma shape_of_ndim2 {T} (a : array_t T) : ndim a = 2 → ∃ h w, shape a = [h; w].
Proof.
  unfold ndim. destruct (shape a) as [|h [|w [|x l]]]; simpl; try lia. eauto.
Qed.

Lemma shape_of_ndim3 {T} (a : array_t T) : ndim a = 3 → ∃ d0 d1 d2, shape a = [d0; d1; d2].
Proof.
  unfold ndim. destruct (shape a) as [|x [|y [|z [|u l]]]]; simpl; try lia. eauto.
Qed.

Section Acceptance.
Context `{CloudApi} `{ImageApi} `{CuboidApi}.

(** X2.  [Cloud.set_key] on a cloud of [n ≠ 0] points accepts exactly the
    C-contiguous buffers of [n] elements, of any dimensionality, and hands
    the buffer to the cloud. *)
Theorem set_key_accepts (c : cloud) (key : array_t float) :
  array_wf key → cloud_get_size c ≠ 0 →
  (is_ok (Cloud.set_key key c) = true
   ↔ size key = cloud_get_size c ∧ Z.land (flags key) c_style ≠ 0) ∧
  (is_ok (Cloud.set_key key c) = true →
   Cloud.set_key key c = (inr tt, cloud_set_key (data key) c)).
Proof.
  intros Wf Hn. pose proof (array_wf_size _ Wf) as Sz.
  destruct (set_key_cases key c) as [(E & Hsz & HC) | (msg & E & Hbad)];
    rewrite E; rewrite Sz in *; simpl.
  - split; [|reflexivity]. split; [|reflexivity].
    intros _. split; [destruct Hsz; [contradiction | assumption] | assumption].
  - split; [|discriminate]. split; [discriminate|].
    intros (Hs & Hc). exfalso. destruct Hbad as [[_ Hb] | Hb]; contradiction.
Qed.

(** X3.  [Cloud.set_mask] on a cloud of [n > 0] points accepts exactly the
    C-contiguous buffers of [4 n] elements with 2 or 3 dimensions: the
    extents of the dimensions are not looked at, and a flat buffer of
    [4 n] elements is rejected. *)
Theorem set_mask_accepts (c : cloud) (mask : array_t float) :
  array_wf mask → 0 < cloud_get_size c → 4 * cloud_get_size c < 2 ^ 64 →
  (is_ok (Cloud.set_mask mask c) = true
   ↔ size mask = 4 * cloud_get_size c ∧ Z.land (flags mask) c_style ≠ 0
     ∧ (ndim mask = 2 ∨ ndim mask = 3)) ∧
  (ndim mask = 1 → ∃ msg, Cloud.set_mask mask c = (inl (invalid_argument msg), c)).
Proof.
  intros Wf Hn Hb. pose proof (array_wf_size _ Wf) as Sz.
  assert (M4 : size_t_mul (cloud_get_size c) 4 = 4 * cloud_get_size c)
    by (apply size_t_mul_small; lia).
  destruct (set_mask_cases mask c) as [(E & Hsz & HC & Hd) | (msg & E & Hbad)];
    rewrite E; rewrite M4, Sz in *; simpl.
  - split.
    + split; [|reflexivity]. intros _. repeat split; auto. destruct Hsz; [lia | assumption].
    + intros Hflat. exfalso. lia.
  - split; [|eauto]. split; [discriminate|].
    intros (Hs & Hc & Hd). exfalso.
    destruct Hbad as [[_ Hbad] | [Hbad | [Hbad Hbad']]]; try contradiction.
    destruct Hd; contradiction.
Qed.

(** X4.  [Cloud.set_xyz] on a cloud of [n > 0] points accepts exactly the
    buffers of [3 n] elements: neither the number of dimensions nor the
    layout flags play a part. *)
Theorem set_xyz_accepts (c : cloud) (xyz : array_t float) :
  array_wf xyz → 0 < cloud_get_size c → 3 * cloud_get_size c < 2 ^ 64 →
  (is_ok (Cloud.set_xyz xyz c) = true ↔ size xyz = 3 * cloud_get_size c) ∧
  (size xyz = 3 * cloud_get_size c →
   Cloud.set_xyz xyz c = (inr tt, cloud_set_xyz (data xyz) c)).
Proof.
  intros Wf Hn Hb. pose proof (array_wf_size _ Wf) as Sz.
  assert (M3 : size_t_mul (cloud_get_size c) 3 = 3 * cloud_get_size c)
    by (apply size_t_mul_small; lia).
  destruct (set_xyz_cases xyz c) as [(E & Hsz) | (msg & E & _ & Hbad)];
    rewrite E; rewrite M3, Sz in *; simpl.
  - assert (size xyz = 3 * cloud_get_size c) by (destruct Hsz; [lia | assumption]).
    split; [split; auto | reflexivity].
  - split; [split; [discriminate | contradiction] | contradiction].
Qed.

(** What [check_array(pose, 16, 2, 'F')] lets through. *)
Lemma pose_check_cases {S} (pose : array_t double) (s : S) :
  array_wf pose →
  (check_array pose 16 2 "F" s = (inr tt, s)
   ∧ size pose = 16 ∧ ndim pose = 2 ∧ Z.land (flags pose) f_style ≠ 0)
  ∨ (∃ msg, check_array pose 16 2 "F" s = (inl (invalid_argument msg), s)
     ∧ (size pose ≠ 16 ∨ ndim pose ≠ 2 ∨ Z.land (flags pose) f_style = 0)).
Proof.
  intros Wf. pose proof (array_wf_size _ Wf) as Sz. pose proof (array_wf_ndim _ Wf) as Nd.
  destruct (check_array_cases pose 16 2 "F"%char s)
    as [(E & Hsz & Hd & HF & _) | (msg & E & Hbad)]; rewrite Sz, Nd in *.
  - left. repeat split; auto.
    + destruct Hsz; [discriminate | assumption].
    + destruct Hd; [discriminate | assumption].
  - right. exists msg. split; [assumption|].
    destruct Hbad as [[_ ?] | [[_ ?] | [[_ ?] | [? _]]]]; auto; try discriminate.
Qed.

(** X5.  [Cloud.set_pose] and [Cuboid.set_transform] receive the pose as
    an F-contiguous array (pybind11 has converted the argument) and accept
    it exactly when it has 2 dimensions and 16 elements, whatever the two
    extents are (4 x 4 is not required); the layout check never fails; and
    they hand over the first 16 elements of the buffer. *)
Theorem pose_setters_accept (c : cloud) (q : cuboid) (pose : pymatrixd) :
  array_wf pose →
  let ok := ∃ h w, shape pose = [h; w] ∧ h * w = 16 in
  (is_ok (Cloud.set_pose pose c) = true ↔ ok) ∧
  (is_ok (Cuboid.set_transform pose q) = true ↔ ok) ∧
  (ok → Cloud.set_pose pose c = (inr tt, cloud_set_pose (copy16 (data pose)) c)
        ∧ Cuboid.set_transform pose q
          = (inr tt, cuboid_set_transform (copy16 (data pose)) q)).
Proof.
  intros Wf ok. subst ok.
  assert (HF : Z.land (flags pose) f_style ≠ 0).
  { pose proof (pm_f_style pose) as Hf. apply Z.eqb_neq. exact Hf. }
  assert (Hshape : (size pose = 16 ∧ ndim pose = 2)
                   ↔ ∃ h w, shape pose = [h; w] ∧ h * w = 16).
  { split.
    - intros (Hs & Hd). destruct (shape_of_ndim2 pose Hd) as (h & w & E).
      exists h, w. split; [assumption|]. unfold size in Hs. rewrite E in Hs. simpl in Hs. lia.
    - intros (h & w & E & Hm). unfold size, ndim. rewrite E. simpl. lia. }
  unfold Cloud.set_pose, Cuboid.set_transform, bind, modify.
  destruct (pose_check_cases pose c Wf) as [(Ec & Hs & Hd & _) | (mc & Ec & Hbad)];
  destruct (pose_check_cases pose q Wf) as [(Eq & Hs' & Hd' & _) | (mq & Eq & Hbad')];
    rewrite Ec, Eq; simpl.
  - rewrite <- Hshape. repeat split; auto.
  - exfalso. destruct Hbad' as [?|[?|?]]; contradiction.
  - exfalso. destruct Hbad as [?|[?|?]]; contradiction.
  - rewrite <- Hshape.
    assert (Hno : ¬ (size pose = 16 ∧ ndim pose = 2)).
    { intros (Hs & Hd). destruct Hbad as [?|[?|?]]; contradiction. }
    repeat split; try discriminate; intros; exfalso; auto.
Qed.

(** X6.  [Image.set_image] accepts exactly the C-contiguous 2-dimensional
    arrays, of any extents; the second extent is handed over as the width
    and the first as the height. *)
Theorem set_image_accepts (i : image) (img : array_t float) :
  array_wf img →
  (is_ok (Image.set_image img i) = true
   ↔ ndim img = 2 ∧ Z.land (flags img) c_style ≠ 0) ∧
  (∀ h w, shape img = [h; w] → Z.land (flags img) c_style ≠ 0 →
     Image.set_image img i = (inr tt, image_set_image w h (data img) i)).
Proof.
  intros Wf. pose proof (array_wf_ndim _ Wf) as Nd.
  unfold Image.set_image, bind, modify, shape_at, throw, ret.
  destruct (check_array_cases img no_size 2 "C"%char i)
    as [(E & _ & Hd & _ & HC) | (msg & E & Hbad)]; rewrite E; rewrite Nd in *; clear E.
  - destruct Hd as [|Hd]; [discriminate|].
    destruct (shape_of_ndim2 img Hd) as (h & w & Esh). rewrite Esh. simpl.
    split; [split; auto|]. intros h' w' Eq _. congruence.
  - simpl. assert (Hno : ¬ (ndim img = 2 ∧ Z.land (flags img) c_style ≠ 0)).
    { intros (Hd & HC). destruct Hbad as [[Hb _] | [[_ Hb] | [[Hb _] | [_ Hb]]]];
        try contradiction; try discriminate; try (apply Hb; reflexivity). }
    split; [split; [discriminate | contradiction]|].
    intros h w Esh HC. exfalso. apply Hno. split; [|assumption].
    unfold ndim. rewrite Esh. reflexivity.
Qed.

(** X7.  [Image.set_mask] accepts exactly the C-contiguous arrays of shape
    [h x w x 4] and hands over [w] and [h]; whether it accepts does not
    depend on the image, so the mask need not match the image set
    before. *)
Theorem image_set_mask_accepts (i : image) (buf : array_t float) :
  array_wf buf →
  (is_ok (Image.set_mask buf i) = true
   ↔ (∃ h w, shape buf = [h; w; 4]) ∧ Z.land (flags buf) c_style ≠ 0) ∧
  (∀ h w, shape buf = [h; w; 4] → Z.land (flags buf) c_style ≠ 0 →
     Image.set_mask buf i = (inr tt, image_set_mask w h (data buf) i)).
Proof.
  intros Wf. pose proof (array_wf_ndim _ Wf) as Nd.
  unfold Image.set_mask, bind, modify, shape_at, throw, ret.
  destruct (check_array_cases buf no_size 3 "C"%char i)
    as [(E & _ & Hd & _ & HC) | (msg & E & Hbad)]; rewrite E; rewrite Nd in *; clear E.
  - destruct Hd as [|Hd]; [discriminate|].
    destruct (shape_of_ndim3 buf Hd) as (h & w & d & Esh). rewrite Esh. simpl.
    destruct (d =? 4) eqn:H4; simpl; reflect_tests.
    + subst d. split; [split; eauto|]. intros h' w' Eq _. congruence.
    + split.
      * split; [discriminate|]. intros ((h' & w' & Eq) & _). congruence.
      * intros h' w' Eq _. congruence.
  - simpl. assert (Hno : ¬ (ndim buf = 3 ∧ Z.land (flags buf) c_style ≠ 0)).
    { intros (Hd & HC). destruct Hbad as [[Hb _] | [[_ Hb] | [[Hb _] | [_ Hb]]]];
        try contradiction; try discriminate; try (apply Hb; reflexivity). }
    split.
    + split; [discriminate|]. intros ((h & w & Esh) & HC). exfalso. apply Hno.
      split; [|assumption]. unfold ndim. rewrite Esh. reflexivity.
    + intros h w Esh HC. exfalso. apply Hno. split; [|assumption].
      unfold ndim. rewrite Esh. reflexivity.
Qed.
End Acceptance.

Import Samples.

Lemma set_key_accepts_witness :
  array_wf key_2 ∧ cloud_get_size cloud2 ≠ 0 ∧
  Cloud.set_key key_2 cloud2 = (inr tt, cloud_set_key (data key_2) cloud2) ∧
  is_ok (Cloud.set_key key_1x2 cloud2) = true.
Proof.
  assert (W1 : array_wf key_2) by wf_by_computation.
  assert (W2 : array_wf key_1x2) by wf_by_computation.
  assert (Hn : cloud_get_size cloud2 ≠ 0) by (vm_compute; discriminate).
  split; [exact W1|]. split; [exact Hn|]. split.
  - apply (proj2 (set_key_accepts cloud2 key_2 W1 Hn)).
    apply (proj2 (proj1 (set_key_accepts cloud2 key_2 W1 Hn))).
    split; [reflexivity | vm_compute; discriminate].
  - apply (proj2 (proj1 (set_key_accepts cloud2 key_1x2 W2 Hn))).
    split; [reflexivity | vm_compute; discriminate].
Defined.

Lemma set_mask_accepts_witness :
  array_wf mask_8 ∧ 0 < cloud_get_size cloud2 ∧ 4 * cloud_get_size cloud2 < 2 ^ 64 ∧
  is_ok (Cloud.set_mask mask_1x2x4 cloud2) = true ∧
  (∃ msg, Cloud.set_mask mask_8 cloud2 = (inl (invalid_argument msg), cloud2)).
Proof.
  assert (W1 : array_wf mask_8) by wf_by_computation.
  assert (W2 : array_wf mask_1x2x4) by wf_by_computation.
  assert (Hn : 0 < cloud_get_size cloud2) by reflexivity.
  assert (Hb : 4 * cloud_get_size cloud2 < 2 ^ 64) by reflexivity.
  split; [exact W1|]. split; [exact Hn|]. split; [exact Hb|]. split.
  - apply (proj2 (proj1 (set_mask_accepts cloud2 mask_1x2x4 W2 Hn Hb))).
    split; [reflexivity|]. split; [vm_compute; discriminate | right; reflexivity].
  - apply (proj2 (set_mask_accepts cloud2 mask_8 W1 Hn Hb)). reflexivity.
Defined.

Lemma set_xyz_accepts_witness :
  array_wf xyz_strided ∧ 0 < cloud_get_size cloud2 ∧ 3 * cloud_get_size cloud2 < 2 ^ 64 ∧
  flags xyz_strided = 0 ∧
  Cloud.set_xyz xyz_strided cloud2 = (inr tt, cloud_set_xyz (data xyz_strided) cloud2).
Proof.
  assert (W : array_wf xyz_strided) by wf_by_computation.
  assert (Hn : 0 < cloud_get_size cloud2) by reflexivity.
  assert (Hb : 3 * cloud_get_size cloud2 < 2 ^ 64) by reflexivity.
  split; [exact W|]. split; [exact Hn|]. split; [exact Hb|]. split; [reflexivity|].
  apply (proj2 (set_xyz_accepts cloud2 xyz_strided W Hn Hb)). reflexivity.
Defined.

Lemma pose_setters_accept_witness :
  array_wf pose_2x8 ∧
  Cloud.set_pose pose_2x8 cloud2 = (inr tt, cloud_set_pose sixteen cloud2) ∧
  Cuboid.set_transform pose_2x8 red_cuboid
  = (inr tt, cuboid_set_transform sixteen red_cuboid) ∧
  is_ok (Cloud.set_pose pose_flat cloud2) = false.
Proof.
  assert (W : array_wf pose_2x8) by wf_by_computation.
  split; [exact W|].
  destruct (proj2 (proj2 (pose_setters_accept cloud2 red_cuboid pose_2x8 W))) as (Hc & Hq).
  { exists 2, 8. split; reflexivity. }
  split; [exact Hc|]. split; [exact Hq | reflexivity].
Defined.

Lemma set_image_accepts_witness :
  array_wf image_2x3 ∧
  Image.set_image image_2x3 no_image
  = (inr tt, image_set_image 3 2 (data image_2x3) no_image) ∧
  is_ok (Image.set_image image_6 no_image) = false.
Proof.
  assert (W : array_wf image_2x3) by wf_by_computation.
  split; [exact W|]. split; [|reflexivity].
  apply (proj2 (set_image_accepts no_image image_2x3 W) 2 3);
    [reflexivity | vm_compute; discriminate].
Defined.

Lemma image_set_mask_accepts_witness :
  array_wf image_mask_1x1x4 ∧
  Image.set_mask image_mask_1x1x4 (mk_image 3 2 (data image_2x3) 0 0 [])
  = (inr tt, mk_image 3 2 (data image_2x3) 1 1 [f0; f0; f0; f1]) ∧
  is_ok (Image.set_mask image_mask_1x4x1 no_image) = false.
Proof.
  assert (W : array_wf image_mask_1x1x4) by wf_by_computation.
  split; [exact W|]. split; [|reflexivity].
  apply (proj2 (@image_set_mask_accepts image_api (mk_image 3 2 (data image_2x3) 0 0 [])
                  image_mask_1x1x4 W) 1 1);
    [reflexivity | vm_compute; discriminate].
Defined.

(** ** Color tuples, continued *)

Section TupleWrites.
Context `{PyCaster}.

Local Abbreviation fill tuple :=
  (λ i, v <- tuple_item_cast tuple i ;; modify (λ dst : list float, <[i:=v]> dst)).

(** The loop stops at the first element that does not convert; what was
    converted before it is already written. *)
Lemma fill_loop_stops (x : pyobject) (post : list pyobject) (conv : list pyobject) :
  ∀ (vs : list float) (pre : list pyobject) (done tail : list float),
  mapM cast_float conv = Some vs → cast_float x = None →
  length done = length pre → (length vs ≤ length tail)%nat →
  for_loop (length (conv ++ x :: post)) (length pre)
    (fill (pre ++ conv ++ x :: post)) (done ++ tail)
  = (inl cast_error, done ++ vs ++ drop (length vs) tail).
Proof.
  induction conv as [|y conv IH]; intros vs pre done tail Hcast Hx Hlen Hfit.
  - injection Hcast as <-. cbn [app length for_loop].
    unfold bind at 1. unfold bind at 1.
    unfold tuple_item_cast at 1. rewrite list_lookup_middle by reflexivity.
    rewrite Hx. reflexivity.
  - apply mapM_Some in Hcast. inversion Hcast as [|? v ? vs' Hy Hrest]; subst.
    destruct tail as [|t tail]; [simpl in Hfit; lia|].
    cbn [app length for_loop]. unfold bind at 1. unfold bind at 1.
    unfold tuple_item_cast at 1. rewrite list_lookup_middle by reflexivity.
    rewrite Hy. unfold ret at 1, modify at 1.
    rewrite <- Hlen. rewrite (insert_app_r_alt done (t :: tail) (length done)) by lia.
    rewrite Nat.sub_diag. cbn [insert list_insert].
    specialize (IH vs' (pre ++ [y]) (done ++ [v]) tail).
    rewrite <- !(assoc_L (++)) in IH. cbn [app] in IH.
    rewrite (length_app pre [y]), (length_app done [v]) in IH. cbn [length] in IH.
    replace (length pre + 1)%nat with (Datatypes.S (length done)) in IH by lia.
    rewrite IH; [reflexivity | apply mapM_Some; assumption | assumption | lia
                | simpl in Hfit; lia].
Qed.

(** X8.  [tuple_to_float_array<N>] on a destination of [N] entries: a
    tuple longer than [N] leaves the destination untouched; a tuple of
    [k ≤ N] convertible elements overwrites entries [0 .. k-1] with the
    converted values and keeps the others; and when an element does not
    convert, the entries before it have already been overwritten when the
    type error is thrown. *)
Theorem tuple_to_float_array_writes (N : nat) (tuple : list pyobject) (dst : list float) :
  length dst = N →
  ((N < length tuple)%nat → snd (tuple_to_float_array N tuple dst) = dst) ∧
  (∀ vs, (length tuple ≤ N)%nat → mapM cast_float tuple = Some vs →
     ∃ dst', tuple_to_float_array N tuple dst = (inr tt, dst') ∧ length dst' = N
       ∧ ∀ i, dst' !! i = if decide (i < length tuple)%nat then vs !! i else dst !! i) ∧
  (∀ conv x post vs, tuple = conv ++ x :: post → (length tuple ≤ N)%nat →
     mapM cast_float conv = Some vs → cast_float x = None →
     tuple_to_float_array N tuple dst
     = (inl (type_error "Expected a tuple of floats"), vs ++ drop (length vs) dst)).
Proof.
  intros Hdst. split; [|split].
  - intros Hlong. rewrite (tuple_too_long N tuple dst Hlong). reflexivity.
  - intros vs Hshort Hcast. rewrite (tuple_converts N tuple vs dst Hshort Hdst Hcast).
    pose proof (length_mapM _ _ _ Hcast) as Hvs.
    eexists. split; [reflexivity|]. split.
    + rewrite length_app, length_drop. lia.
    + intros i. rewrite Hvs. destruct (decide (i < length vs)%nat) as [Hi|Hi].
      * apply lookup_app_l. assumption.
      * rewrite lookup_app_r by lia. rewrite lookup_drop. f_equal. lia.
  - intros conv x post vs -> Hshort Hcast Hx.
    unfold tuple_to_float_array. unfold bind at 1. unfold catch_cast_error, ret, throw.
    destruct (N <? length (conv ++ x :: post))%nat eqn:Hlt;
      [apply Nat.ltb_lt in Hlt; lia|].
    pose proof (length_mapM _ _ _ Hcast) as Hvs.
    pose proof (fill_loop_stops x post conv vs [] [] dst Hcast Hx eq_refl) as E.
    cbn [app length] in E. rewrite E; [reflexivity|].
    rewrite length_app in Hshort. cbn [length] in Hshort. lia.
Qed.
End TupleWrites.

Section ColorSetters.
Context `{CuboidApi} `{LabelApi} `{PyCaster}.

(** X9.  [Label.set_rgba]: a tuple of more than 4 elements is rejected
    with [invalid_argument], the label left as it was; a tuple of at most
    4 elements that all convert sets the converted values followed by the
    remaining components of (0, 0, 0, 1). *)
Theorem label_set_rgba_outcomes (l : label) (rgba : list pyobject) (vs : list float) :
  ((4 < length rgba)%nat →
     Label.set_rgba rgba l
     = (inl (invalid_argument "Expected a tuple of size <= 4"), l)) ∧
  ((length rgba ≤ 4)%nat → mapM cast_float rgba = Some vs →
     Label.set_rgba rgba l
     = (inr tt, label_set_rgba (vs ++ drop (length vs) default_rgba) l)).
Proof.
  split.
  - intros Hlong. apply (rgba_block_too_long label_set_rgba rgba l Hlong).
  - intros Hshort Hcast. apply (rgba_block_converts label_set_rgba rgba vs l Hshort Hcast).
Qed.

(** X10.  On a cuboid and on a label, [set_rgba] with the empty tuple sets
    the default color (0, 0, 0, 1), and with four convertible elements it
    sets exactly their values: the color set is made from the tuple and
    the default alone, never from the color the object had. *)
Theorem set_rgba_empty_and_full (q : cuboid) (l : label) (rgba : list pyobject)
    (vs : list float) :
  Cuboid.set_rgba [] q = (inr tt, cuboid_set_rgba default_rgba q) ∧
  Label.set_rgba [] l = (inr tt, label_set_rgba default_rgba l) ∧
  (length rgba = 4%nat → mapM cast_float rgba = Some vs →
     Cuboid.set_rgba rgba q = (inr tt, cuboid_set_rgba vs q)
     ∧ Label.set_rgba rgba l = (inr tt, label_set_rgba vs l)).
Proof.
  split; [|split].
  - apply (rgba_block_converts cuboid_set_rgba [] [] q); [simpl; lia | reflexivity].
  - apply (rgba_block_converts label_set_rgba [] [] l); [simpl; lia | reflexivity].
  - intros H4 Hcast. pose proof (length_mapM _ _ _ Hcast) as Hvs.
    assert (Hfull : vs ++ drop (length vs) default_rgba = vs).
    { rewrite drop_ge by (simpl; lia). apply app_nil_r. }
    rewrite <- Hfull. split.
    + apply (rgba_block_converts cuboid_set_rgba rgba vs q); [lia | assumption].
    + apply (rgba_block_converts label_set_rgba rgba vs l); [lia | assumption].
Qed.

(** X11.  The Cuboid constructor checks the pose before it looks at the
    color: with a pose that fails its check, what is thrown is the error of
    that check, whatever the tuple holds. *)
Theorem cuboid_init_checks_pose_first (pose : array_t double) (rgba : list pyobject) :
  is_ok (check_array pose 16 2 "F" tt) = false →
  ∃ msg, check_array pose 16 2 "F" tt = (inl (invalid_argument msg), tt)
         ∧ Cuboid.init pose rgba tt = (inl (invalid_argument msg), tt).
Proof.
  intros Hbad. unfold Cuboid.init. unfold bind at 1.
  destruct (check_array_cases pose 16 2 "F"%char tt) as [(E & _) | (msg & E & _)];
    rewrite E in *; [discriminate|].
  exists msg. split; reflexivity.
Qed.
End ColorSetters.

Lemma tuple_to_float_array_writes_witness :
  tuple_to_float_array 4 tuple_r_name_b default_rgba
  = (inl (type_error "Expected a tuple of floats"), [f1; f0; f0; f1]) ∧
  tuple_to_float_array 4 tuple_rgb default_rgba = (inr tt, [f1; f_half; f0; f1]) ∧
  snd (tuple_to_float_array 4 tuple_of_5 default_rgba) = default_rgba.
Proof.
  destruct (tuple_to_float_array_writes 4 tuple_r_name_b default_rgba eq_refl)
    as (_ & _ & Hstop).
  destruct (tuple_to_float_array_writes 4 tuple_of_5 default_rgba eq_refl)
    as (Hlong & _ & _).
  split; [|split].
  - apply (Hstop [PyLong 1] (PyStr "g") [PyLong 1] [f1]);
      [reflexivity | simpl; lia | reflexivity | reflexivity].
  - reflexivity.
  - apply Hlong. simpl. lia.
Defined.

Lemma label_set_rgba_outcomes_witness :
  Label.set_rgba tuple_of_5 red_label
  = (inl (invalid_argument "Expected a tuple of size <= 4"), red_label) ∧
  Label.set_rgba tuple_rgb red_label = (inr tt, mk_label "stop" [f1; f_half; f0; f1]).
Proof.
  split.
  - apply (proj1 (label_set_rgba_outcomes red_label tuple_of_5 [])). simpl. lia.
  - apply (proj2 (label_set_rgba_outcomes red_label tuple_rgb [f1; f_half; f0]));
      [simpl; lia | reflexivity].
Defined.

Lemma set_rgba_empty_and_full_witness :
  Cuboid.set_rgba tuple_empty glass_cuboid
  = (inr tt, mk_cuboid (data identity_pose) [f0; f0; f0; f1]) ∧
  Cuboid.set_rgba tuple_rgba glass_cuboid
  = (inr tt, mk_cuboid (data identity_pose) [f0; f1; f_half; f_half]).
Proof.
  split.
  - apply (proj1 (set_rgba_empty_and_full glass_cuboid red_label tuple_rgba [])).
  - apply (proj2 (proj2 (set_rgba_empty_and_full glass_cuboid red_label tuple_rgba
                           [f0; f1; f_half; f_half])));
      reflexivity.
Defined.

Lemma cuboid_init_checks_pose_first_witness :
  is_ok (check_array (S:=unit) pose_3 16 2 "F" tt) = false ∧
  Cuboid.init pose_3 tuple_of_5_names tt
  = (inl (invalid_argument "Expected array of size: 16"), tt).
Proof.
  split; [reflexivity|].
  destruct (cuboid_init_checks_pose_first pose_3 tuple_of_5_names eq_refl)
    as (msg & Hcheck & Hinit).
  rewrite Hinit. vm_compute in Hcheck. injection Hcheck as <-. reflexivity.
Defined.

(** ** The rendering loop, continued *)

Section RunMore.
Import PointViz Loop.
Context `{PointVizApi}.

(** While the loop holds the GIL, the rest of the process can only make a
    signal pending. *)
Lemma env_step_held (a : env_act) (w : world) :
  gil w = true →
  ∃ sp, env_step w a
        = mk_world (pc w) (running w) (visible w) true sp (frames w) (the_scene w)
        ∧ (signal_pending w = true → sp = true)
        ∧ (benign a → sp = signal_pending w).
Proof.
  intros Hg. destruct w as [p rn vis g sp fr sc]. simpl in Hg. subst g.
  destruct a as [[|]|f|]; simpl.
  - exists sp. auto.
  - exists sp. auto.
  - exists sp. auto.
  - exists true. repeat split; auto. contradiction.
Qed.

Lemma env_steps_held (acts : list env_act) (w : world) :
  gil w = true →
  ∃ sp, foldl env_step w acts
        = mk_world (pc w) (running w) (visible w) true sp (frames w) (the_scene w)
        ∧ (signal_pending w = true → sp = true)
        ∧ (Forall benign acts → sp = signal_pending w).
Proof.
  revert w. induction acts as [|a acts IH]; intros w Hg.
  - exists (signal_pending w). destruct w; simpl in *; subst. auto.
  - cbn [foldl]. destruct (env_step_held a w Hg) as (s1 & E1 & P1 & B1). rewrite E1.
    destruct (IH (mk_world (pc w) (running w) (visible w) true s1 (frames w)
                    (the_scene w)) eq_refl) as (sp & E & Hs & Hb).
    cbn in *. exists sp. split; [exact E|]. split; [auto|].
    intros Hall. inversion Hall; subst. rewrite Hb, B1; auto.
Qed.

(** The first three steps of [run()]. *)
Lemma run_entry (r v sg : bool) (sc : scene) (a1 a2 a3 : list env_act) :
  ∃ sp, run [a1; a2; a3] r v sg sc = mk_world SigCheck true true true sp 0 sc
        ∧ (sg = true → sp = true)
        ∧ (Forall benign a1 → Forall benign a2 → Forall benign a3 → sp = sg).
Proof.
  unfold run, enter. cbn [exec].
  destruct (env_steps_held a1 (mk_world Start r v true sg 0 sc) eq_refl)
    as (s1 & E1 & P1 & B1). rewrite E1. cbn.
  destruct (env_steps_held a2 (mk_world SetVisible true v true s1 0 sc) eq_refl)
    as (s2 & E2 & P2 & B2). rewrite E2. cbn.
  destruct (env_steps_held a3 (mk_world LoopHead true true true s2 0 sc) eq_refl)
    as (s3 & E3 & P3 & B3). rewrite E3. cbn.
  exists s3. split; [reflexivity|]. cbn in *. split.
  - auto.
  - intros F1 F2 F3. rewrite (B3 F3), (B2 F2), (B1 F1). reflexivity.
Qed.

Lemma exec_app (s1 s2 : schedule) (w : world) : exec (s1 ++ s2) w = exec s2 (exec s1 w).
Proof. revert w. induction s1 as [|a s1 IH]; intros w; simpl; [reflexivity | apply IH]. Qed.

(** X12.  Whatever the running flag was when [run()] is entered, and
    whatever other threads try meanwhile, after its first three steps
    [run()] stands at its first signal check with the flag set, the window
    visible and no frame rendered: a stop requested before [run()] is
    lost. *)
Theorem run_overrides_earlier_stop (r v sg : bool) (sc : scene) (a1 a2 a3 : list env_act) :
  let w := run [a1; a2; a3] r v sg sc in
  pc w = SigCheck ∧ running w = true ∧ visible w = true ∧ frames w = 0%nat.
Proof.
  intros w. subst w. destruct (run_entry r v sg sc a1 a2 a3) as (sp & E & _).
  rewrite E. repeat split.
Qed.

(** X13.  Entered with a signal pending, [run()] throws
    [error_already_set] at its fourth step, without having called
    [run_once], and leaves the window visible. *)
Theorem run_pending_signal_at_entry (r v : bool) (sc : scene) (sched : schedule) :
  (4 ≤ length sched)%nat →
  let w := run sched r v true sc in
  pc w = Thrown error_already_set ∧ frames w = 0%nat ∧ visible w = true.
Proof.
  intros Hlen w. subst w.
  destruct sched as [|a1 [|a2 [|a3 [|a4 rest]]]]; simpl in Hlen; try lia.
  change (a1 :: a2 :: a3 :: a4 :: rest) with ([a1; a2; a3] ++ a4 :: rest).
  unfold run. rewrite exec_app. fold (run [a1; a2; a3] r v true sc).
  destruct (run_entry r v true sc a1 a2 a3) as (sp & E & Hsp & _).
  rewrite E, (Hsp eq_refl). cbn [exec].
  destruct (env_steps_held a4 (mk_world SigCheck true true true true 0 sc) eq_refl)
    as (s4 & E4 & P4 & _). rewrite E4. cbn in P4. rewrite (P4 eq_refl). cbn.
  destruct (finished_exec rest
              (mk_world (Thrown error_already_set) true true true false 0 sc) I)
    as (Hp & Hf & Hv).
  rewrite Hp, Hf, Hv. repeat split.
Qed.

(** With a signal pending the loop is on its way out, whatever other
    threads do. *)
Lemma interrupt_step (w : world) (acts : list env_act) :
  signal_pending w = true ∨ finished (pc w) →
  let w' := run_step (foldl env_step w acts) in
  (signal_pending w' = true ∨ finished (pc w'))
  ∧ (frames w' + frames_left (pc w') ≤ frames w + frames_left (pc w))%nat
  ∧ (interrupt_steps_left (pc w') ≤ pred (interrupt_steps_left (pc w)))%nat.
Proof.
  intros Hinv.
  destruct (env_steps_frame acts w) as (Hp & _ & _ & Hf & _ & _ & Hs).
  assert (Hinv' : signal_pending (foldl env_step w acts) = true
                  ∨ finished (pc (foldl env_step w acts))).
  { rewrite Hp. destruct Hinv; auto. }
  revert Hp Hf Hinv'. generalize (foldl env_step w acts). clear Hs Hinv.
  intros u Hp Hf Hinv. destruct u as [p rn vis g sp fr sc]. simpl in *. subst p fr.
  unfold run_step. simpl.
  assert (Hsig : ∀ P : Prop, P → sp = true ∨ P) by auto.
  destruct (pc w) as [| | | |i| | |e]; simpl in *;
    try (destruct Hinv as [-> | []]);
    try (destruct Hinv as [-> | _]); simpl;
    try (destruct rn; simpl);
    try (destruct (i <? check_every)%nat eqn:Hi;
         [apply Nat.ltb_lt in Hi; destruct (run_once sc) as [sc' closed]
         | apply Nat.ltb_ge in Hi]; simpl);
    repeat split; auto; unfold check_every in *; lia.
Qed.

(** X14.  Once a signal is pending, [run()] calls [run_once] at most 10
    more times and has ended (thrown, or returned if a stop came first)
    after at most 13 further steps, whatever other threads do. *)
Theorem interrupt_latency (w : world) (post : schedule) :
  signal_pending w = true →
  (frames (exec post w) ≤ frames w + check_every)%nat ∧
  ((13 ≤ length post)%nat → finished (pc (exec post w))).
Proof.
  intros Hsig.
  assert (Hgen : ∀ post w, signal_pending w = true ∨ finished (pc w) →
            (signal_pending (exec post w) = true ∨ finished (pc (exec post w)))
            ∧ (frames (exec post w) + frames_left (pc (exec post w))
               ≤ frames w + frames_left (pc w))%nat
            ∧ (interrupt_steps_left (pc (exec post w))
               ≤ interrupt_steps_left (pc w) - length post)%nat).
  { clear. induction post as [|acts post IH]; intros w Hinv; simpl.
    - repeat split; [assumption | lia | lia].
    - destruct (interrupt_step w acts Hinv) as (Hinv' & Hfr & Hst).
      destruct (IH _ Hinv') as (Hinv'' & Hfr' & Hst').
      repeat split; [assumption | lia | lia]. }
  destruct (Hgen post w (or_introl Hsig)) as (_ & Hfr & Hst).
  assert (Hfl : (frames_left (pc w) ≤ check_every)%nat)
    by (destruct (pc w); simpl; unfold check_every; lia).
  assert (Hsl : (interrupt_steps_left (pc w) ≤ 13)%nat)
    by (destruct (pc w); simpl; unfold check_every; lia).
  split; [lia|]. intros Hlen.
  destruct (pc (exec post w)) as [| | | |i| | |e]; simpl in *; try exact I; lia.
Qed.
End RunMore.

Section RunInvariants.
Import PointViz Loop.
Context `{PointVizApi}.

Lemma gil_inv_env (w : world) (acts : list env_act) :
  gil_inv w → gil_inv (foldl env_step w acts).
Proof.
  destruct (env_steps_frame acts w) as (Hp & _ & Hg & _).
  unfold gil_inv. rewrite Hp, Hg. auto.
Qed.

Lemma gil_inv_step (w : world) : gil_inv w → gil_inv (run_step w).
Proof.
  destruct w as [p rn vis g sp fr sc]. unfold gil_inv, run_step. simpl.
  destruct p as [| | | |i| | |e]; simpl; auto.
  - destruct rn; simpl; auto.
  - destruct sp; simpl; auto.
  - destruct (i <? check_every)%nat; [destruct (run_once sc)|]; simpl; auto.
Qed.

Lemma gil_inv_exec (sched : schedule) : ∀ w : world, gil_inv w → gil_inv (exec sched w).
Proof.
  induction sched as [|acts sched IH]; intros w Hinv; simpl; [assumption|].
  apply IH, gil_inv_step, gil_inv_env, Hinv.
Qed.

(** X15.  All along [run()], the GIL is released exactly while the loop
    is inside a batch: it is held at entry, at the test of the running
    flag, at the signal check, and when [run()] returns or throws. *)
Theorem gil_released_only_in_batch (r v sg : bool) (sc : scene)
    (sched : schedule) (acts : list env_act) :
  let w := foldl env_step (run sched r v sg sc) acts in
  (gil w = false ↔ ∃ i, pc w = Batch i) ∧ (finished (pc w) → gil w = true).
Proof.
  intros w. assert (Hinv : gil_inv w).
  { apply gil_inv_env, gil_inv_exec. reflexivity. }
  clearbody w. unfold gil_inv in Hinv. split.
  - split.
    + intros Hg. destruct (pc w) as [| | | |i| | |e]; try congruence. eauto.
    + intros (i & Hpc). rewrite Hpc in Hinv. assumption.
  - intros Hfin. destruct (pc w); simpl in Hfin; try contradiction; assumption.
Qed.

(** X16.  Every call of [run_once] is made with the window visible, the
    GIL released and fewer than 10 calls made in the batch; and when
    [run()] has returned, the number of calls made is a multiple of 10. *)
Theorem frames_in_whole_batches (r v sg : bool) (sc : scene)
    (sched : schedule) (acts : list env_act) :
  let w := foldl env_step (run sched r v sg sc) acts in
  (frames (run_step w) = Datatypes.S (frames w) →
     visible w = true ∧ gil w = false ∧ ∃ i, pc w = Batch i ∧ (i < check_every)%nat) ∧
  (pc w = Returned → at_boundary (frames w)).
Proof.
  intros w. assert (Hinv : run_inv w) by apply run_inv_env, run_inv_run.
  clearbody w. unfold run_inv in Hinv. split.
  - unfold run_step. destruct (pc w) as [| | | |i| | |e] eqn:Hpc; simpl;
      try (intros Hfr; exfalso; lia).
    + destruct (signal_pending w); simpl; intros Hfr; exfalso; lia.
    + destruct Hinv as (Hg & Hv & _).
      destruct (i <? check_every)%nat eqn:Hi.
      * apply Nat.ltb_lt in Hi. intros _. eauto.
      * simpl. intros Hfr. exfalso. lia.
  - intros Hpc. rewrite Hpc in Hinv. apply Hinv.
Qed.

Lemma frames_mono (post : schedule) : ∀ w : world, (frames w ≤ frames (exec post w))%nat.
Proof.
  induction post as [|acts post IH]; intros w; simpl; [lia|].
  destruct (env_steps_frame acts w) as (_ & _ & _ & Hf & _).
  etransitivity; [|apply IH]. rewrite <- Hf.
  generalize (foldl env_step w acts). intros u.
  unfold run_step. destruct (pc u) as [| | | |i| | |e]; simpl; try lia.
  - destruct (signal_pending u); simpl; lia.
  - destruct (i <? check_every)%nat; [destruct (run_once (the_scene u))|]; simpl; lia.
Qed.

(** X17.  With the window closed (every frame-step reports it) and no
    thread setting the running flag again, [run()] has ended after 17
    steps: it has returned after exactly one batch of 10 frame-steps, or it
    has thrown on a signal before rendering anything. *)
Theorem closed_window_one_batch (r v sg : bool) (sc : scene) (sched : schedule) :
  (∀ s, snd (run_once s) = true) → quiet sched → (17 ≤ length sched)%nat →
  let w := run sched r v sg sc in
  (pc w = Returned ∧ frames w = check_every)
  ∨ (pc w = Thrown error_already_set ∧ frames w = 0%nat).
Proof.
  intros Hclosed Hq Hlen w. subst w.
  destruct sched as [|a1 [|a2 [|a3 [|a4 [|a5 rest]]]]]; simpl in Hlen; try lia.
  change (a1 :: a2 :: a3 :: a4 :: a5 :: rest) with ([a1; a2; a3] ++ a4 :: a5 :: rest).
  assert (Hq' : Forall no_restart a5 ∧ quiet rest).
  { unfold quiet in *. do 4 (apply Forall_cons in Hq; destruct Hq as [_ Hq]).
    apply Forall_cons in Hq. exact Hq. }
  unfold run. rewrite exec_app. fold (run [a1; a2; a3] r v sg sc).
  destruct (run_entry r v sg sc a1 a2 a3) as (sp & E & _). rewrite E. cbn [exec].
  destruct (env_steps_held a4 (mk_world SigCheck true true true sp 0 sc) eq_refl)
    as (s4 & E4 & _). rewrite E4. cbn [pc running visible gil signal_pending frames the_scene].
  destruct s4.
  - right. cbn.
    destruct (finished_exec rest
                (run_step (foldl env_step
                   (mk_world (Thrown error_already_set) true true true false 0 sc) a5)))
      as (Hp & Hf & _).
    { destruct (env_steps_frame a5
                  (mk_world (Thrown error_already_set) true true true false 0 sc))
        as (Hp5 & _). unfold run_step. rewrite Hp5. simpl. rewrite Hp5. exact I. }
    rewrite Hp, Hf.
    destruct (env_steps_frame a5
                (mk_world (Thrown error_already_set) true true true false 0 sc))
      as (Hp5 & _ & _ & Hf5 & _).
    unfold run_step. rewrite Hp5. simpl. rewrite Hp5, Hf5. split; reflexivity.
  - left. cbn.
    set (b0 := mk_world (Batch 0) true true false false 0 sc).
    destruct (env_steps_frame a5 b0) as (Hp5 & _ & _ & Hf5 & _).
    set (w5 := run_step (foldl env_step b0 a5)).
    assert (H5 : pc w5 = Batch 1 ∧ running w5 = false ∧ frames w5 = 1%nat).
    { subst w5. unfold run_step. rewrite Hp5. simpl.
      pose proof (Hclosed (the_scene (foldl env_step b0 a5))) as Hc.
      destruct (run_once (the_scene (foldl env_step b0 a5))) as [sc' closed].
      simpl in Hc. subst closed. simpl. rewrite Hf5. repeat split. }
    destruct H5 as (Hpc5 & Hr5 & Hfr5).
    assert (Hstop : stopping w5) by (split; [assumption | rewrite Hpc5; exact I]).
    destruct (stopping_exec rest w5 Hstop (proj2 Hq')) as (Hstop' & Hfr & Hst).
    rewrite Hpc5, Hfr5 in *. simpl in Hfr, Hst.
    assert (Hret : pc (exec rest w5) = Returned)
      by (apply stopping_done; [assumption | lia]).
    split; [assumption|].
    assert (Hinv : run_inv (exec rest w5)).
    { subst w5 b0.
      replace (exec rest _) with (run ([a1; a2; a3] ++ a4 :: a5 :: rest) r v sg sc).
      - apply run_inv_run.
      - unfold run. rewrite exec_app. fold (run [a1; a2; a3] r v sg sc).
        rewrite E. cbn [exec]. rewrite E4. reflexivity. }
    unfold run_inv in Hinv. rewrite Hret in Hinv. destruct Hinv as (_ & k & Hk).
    pose proof (frames_mono rest w5) as Hmono. rewrite Hfr5 in Hmono.
    rewrite Hret in Hfr. simpl in Hfr. unfold check_every in *. lia.
Qed.

Lemma alive_env (w : world) (acts : list env_act) :
  Forall benign acts → alive w → alive (foldl env_step w acts).
Proof.
  revert w. induction acts as [|a acts IH]; intros w Hall Hw; simpl; [assumption|].
  inversion Hall as [|? ? Ha Hrest]; subst. apply IH; [assumption|].
  destruct w as [p rn vis g sp fr sc]. unfold alive in *. simpl in *.
  destruct a as [[|]|f|]; simpl in *; try contradiction;
    destruct g; simpl; try assumption;
    destruct Hw as (Hs & Hp); split; try assumption;
    destruct p; simpl in *; auto.
Qed.

Lemma alive_step (w : world) :
  (∀ s, snd (run_once s) = false) → alive w → alive (run_step w).
Proof.
  intros Hopen. destruct w as [p rn vis g sp fr sc]. unfold alive, run_step. simpl.
  intros (Hs & Hp). subst sp.
  destruct p as [| | | |i| | |e]; simpl in *; try contradiction; auto.
  - subst rn. simpl. auto.
  - destruct (i <? check_every)%nat; simpl; auto.
    pose proof (Hopen sc) as Hc. destruct (run_once sc) as [sc' closed].
    simpl in *. subst closed. auto.
Qed.

(** X18.  With the window open (no frame-step reports it closed), no
    signal pending at entry or delivered, and no thread calling
    [running(false)], [run()] never returns and never throws, however long
    it runs. *)
Theorem run_blocks_until_stopped (r v : bool) (sc : scene) (sched : schedule) :
  (∀ s, snd (run_once s) = false) → undisturbed sched →
  ¬ finished (pc (run sched r v false sc)).
Proof.
  intros Hopen Hund.
  assert (Halive : ∀ sched w, undisturbed sched → alive w → alive (exec sched w)).
  { clear sched Hund. induction sched as [|acts sched IH]; intros w Hu Hw; simpl;
      [assumption|].
    inversion Hu; subst. apply IH; [assumption|].
    apply alive_step; [assumption|]. apply alive_env; assumption. }
  assert (Hfinal : alive (run sched r v false sc)).
  { apply Halive; [assumption|]. split; [reflexivity | exact I]. }
  destruct Hfinal as (_ & Hp). intros Hfin.
  destruct (pc (run sched r v false sc)); simpl in *; contradiction.
Qed.
End RunInvariants.

Lemma run_pending_signal_at_entry_witness :
  let w := @PointViz.run open_window (replicate 4 []) false false true 0%nat in
  PointViz.pc w = PointViz.Thrown error_already_set ∧ PointViz.frames w = 0%nat
  ∧ PointViz.visible w = true.
Proof.
  apply (@run_pending_signal_at_entry open_window false false 0%nat (replicate 4 [])).
  simpl. lia.
Defined.

Lemma interrupt_latency_witness :
  let w := @PointViz.run open_window
             [[]; []; []; []; []; [PointViz.deliver_signal]] false false false 0%nat in
  let post := replicate 13 [] in
  (PointViz.pc w = PointViz.Batch 2 ∧ PointViz.signal_pending w = true) ∧
  (PointViz.frames (PointViz.exec post w) ≤ PointViz.frames w + PointViz.check_every)%nat ∧
  PointViz.pc (PointViz.exec post w) = PointViz.Thrown error_already_set.
Proof.
  intros w post.
  assert (Hsig : PointViz.signal_pending w = true) by (vm_compute; reflexivity).
  split; [split; [vm_compute; reflexivity | exact Hsig]|].
  split.
  - exact (proj1 (@interrupt_latency open_window w post Hsig)).
  - vm_compute. reflexivity.
Defined.

Lemma gil_released_only_in_batch_witness :
  let w := @PointViz.run open_window (replicate 5 []) false false false 0%nat in
  PointViz.pc w = PointViz.Batch 1 ∧ PointViz.gil w = false.
Proof.
  intros w. split; [vm_compute; reflexivity|].
  apply (proj2 (proj1 (@gil_released_only_in_batch open_window false false false 0%nat
                         (replicate 5 []) []))).
  exists 1%nat. vm_compute. reflexivity.
Defined.

Lemma frames_in_whole_batches_witness :
  let w := foldl PointViz.env_step
             (@PointViz.run closed_window (replicate 17 []) false false false 0%nat) [] in
  PointViz.pc w = PointViz.Returned ∧ PointViz.at_boundary (PointViz.frames w).
Proof.
  intros w. assert (Hpc : PointViz.pc w = PointViz.Returned) by (vm_compute; reflexivity).
  split; [exact Hpc|].
  destruct (@frames_in_whole_batches closed_window false false false 0%nat
              (replicate 17 []) []) as (_ & Hret).
  apply Hret. exact Hpc.
Defined.

Lemma closed_window_one_batch_witness :
  let w := @PointViz.run closed_window (replicate 17 []) false false false 0%nat in
  (PointViz.pc w = PointViz.Returned ∧ PointViz.frames w = PointViz.check_every)
  ∨ (PointViz.pc w = PointViz.Thrown error_already_set ∧ PointViz.frames w = 0%nat).
Proof.
  apply (@closed_window_one_batch closed_window false false false 0%nat (replicate 17 [])).
  - intros s. reflexivity.
  - repeat constructor.
  - simpl. lia.
Defined.

Lemma run_blocks_until_stopped_witness :
  ¬ PointViz.finished
      (PointViz.pc (@PointViz.run open_window
                      (replicate 40 [PointViz.call_running true]) true true false 0%nat)).
Proof.
  apply (@run_blocks_until_stopped open_window true true 0%nat
           (replicate 40 [PointViz.call_running true])).
  - intros s. reflexivity.
  - repeat constructor.
Defined.

(** ** The structured constructor, continued *)

(** X19.  The structured constructor never reads the offset component of
    the lookup table: two libraries whose tables for a sensor agree on the
    direction component give the same constructor arguments, in which the
    offset vectors equal the direction vectors. *)
Theorem structured_init_ignores_offset (L1 L2 : LidarScanApi) (info : sensor_info) :
  direction (@make_xyz_lut L1 info) = direction (@make_xyz_lut L2 info) →
  @Cloud.init_args L1 info = @Cloud.init_args L2 info
  ∧ Cloud.arg_offset (@Cloud.init_args L1 info) = Cloud.arg_direction (@Cloud.init_args L1 info).
Proof.
  intros Hdir. unfold Cloud.init_args. rewrite Hdir. split; reflexivity.
Qed.

Lemma structured_init_ignores_offset_witness :
  offset lut_1x1 ≠ offset lut_1x1_shifted ∧
  @Cloud.init_args (lut_api lut_1x1) sensor_1x1
  = @Cloud.init_args (lut_api lut_1x1_shifted) sensor_1x1.
Proof.
  split; [discriminate|].
  apply (structured_init_ignores_offset (lut_api lut_1x1) (lut_api lut_1x1_shifted)
           sensor_1x1).
  reflexivity.
Defined.

(** ** Cancellation *)

Section Cancellation.
Import PointViz Loop.
Context `{PointVizApi}.




End Cancellation.


